(** * TRP-Backend: the listing, cart and wishlist endpoints

    A shallow embedding of [api/v1/endpoints/properties.py],
    [api/v1/endpoints/cart.py] and [api/v1/endpoints/wishlist.py].

    Python values decoded from JSON are the inductive [pyval]; a dict is a
    finite map from string keys.  A function that may raise returns
    [res A = pyexc + A].  An awaited HTTP call is resolved by the outcome the
    outside world gives it ([http_outcome]), passed in as an argument. *)

From Stdlib Require Import ZArith String Ascii List Lia DecimalString.
From stdpp Require Import base gmap strings list.

Local Set Warnings "-register-all".
Local Open Scope Z_scope.
Local Open Scope string_scope.
Local Open Scope list_scope.

(** ** Python values *)

Module Py.

(** A Python float: not-a-number, an infinity, or the dyadic rational
    [m * 2^e].  Only truthiness and truncation to [int] are used on floats. *)
Inductive pyfloat :=
| FNan
| FInf (negative : bool)
| FFin (m e : Z).

Inductive pyval :=
| PNone
| PBool (b : bool)
| PInt (z : Z)
| PFloat (f : pyfloat)
| PStr (s : string)
| PList (l : list pyval)
| PDict (d : gmap string pyval).

Inductive pyexc :=
| HTTPException (status_code : Z) (detail : string)
| HTTPStatusError (status_code : Z) (body : string)
| TransportError (message : string)
| JSONDecodeError
| KeyError (key : string)
| TypeError
| ValueError
| OverflowError
| AttributeError.

Definition res (A : Type) : Type := pyexc + A.

Definition ret {A} (a : A) : res A := inr a.
Definition raise {A} (e : pyexc) : res A := inl e.

Definition bind {A B} (m : res A) (k : A -> res B) : res B :=
  match m with
  | inl e => inl e
  | inr a => k a
  end.

Notation "'let*' x := m 'in' k" := (bind m (fun x => k))
  (at level 10, x name, m at level 100, k at level 200).

(** [bool(v)]. *)
Definition float_truthy (f : pyfloat) : bool :=
  match f with
  | FFin m _ => negb (Z.eqb m 0)
  | _ => true
  end.

Definition truthy (v : pyval) : bool :=
  match v with
  | PNone => false
  | PBool b => b
  | PInt z => negb (Z.eqb z 0)
  | PFloat f => float_truthy f
  | PStr s => negb (String.eqb s "")
  | PList l => match l with [] => false | _ => true end
  | PDict d => negb (bool_decide (d = empty))
  end.

(** Truthiness and f-string rendering of an optional str ([None] or a str),
    such as [os.getenv] or a header lookup gives. *)
Definition opt_truthy (o : option string) : bool :=
  match o with
  | Some s => negb (String.eqb s "")
  | None => false
  end.

Definition str_of_opt (o : option string) : string :=
  match o with
  | Some s => s
  | None => "None"
  end.

(** [a or b] on values already evaluated (both operands are pure here). *)
Definition py_or (a b : pyval) : pyval := if truthy a then a else b.

(** [d.get(key, default)]. *)
Definition dict_get (d : gmap string pyval) (key : string) (default : pyval) : pyval :=
  match d !! key with
  | Some v => v
  | None => default
  end.

(** [v.get(key, default)]: only a dict has the method. *)
Definition py_get (v : pyval) (key : string) (default : pyval) : res pyval :=
  match v with
  | PDict d => ret (dict_get d key default)
  | _ => raise AttributeError
  end.

(** [v[key]] for a str key. *)
Definition py_getitem (v : pyval) (key : string) : res pyval :=
  match v with
  | PDict d =>
      match d !! key with
      | Some x => ret x
      | None => raise (KeyError key)
      end
  | _ => raise TypeError
  end.

(** [for item in v]: the items visited.  A str yields its characters (bytes
    here), a dict its keys. *)
Definition py_iter (v : pyval) : res (list pyval) :=
  match v with
  | PList l => ret l
  | PStr s => ret (map (fun c => PStr (String c "")) (list_ascii_of_string s))
  | PDict d => ret (map (fun kv => PStr (fst kv)) (map_to_list d))
  | _ => raise TypeError
  end.

(** [v != s] for a str [s]. *)
Definition py_ne_str (v : pyval) (s : string) : bool :=
  match v with
  | PStr t => negb (String.eqb t s)
  | _ => true
  end.

(** [str(n)] for an int. *)
Definition str_of_int (z : Z) : string := NilZero.string_of_int (Z.to_int z).

(** [int(s)] for a str, base 10.  A str is held as its UTF-8 bytes.  As the
    interpreter does, every character from 127 on is first replaced: a
    Unicode space by " ", a Unicode decimal digit by its ASCII digit, and any
    other character makes the conversion fail.  Then surrounding whitespace
    (the six ASCII ones) is stripped, and what is left is an optional sign and
    decimal digits, single underscores allowed between digits; more digits
    than the interpreter's default limit of 4300 are refused.  The two tables
    are those of the Unicode 14.0 database (CPython 3.11): the spaces from
    127 on, and the code point of the zero of each run of ten decimal
    digits. *)
Definition unicode_spaces : list N :=
  [
    133; 160; 5760; 8192; 8193; 8194; 8195; 8196;
    8197; 8198; 8199; 8200; 8201; 8202; 8232; 8233;
    8239; 8287; 12288 ]%N.

Definition unicode_decimal_zeros : list N :=
  [
    48; 1632; 1776; 1984; 2406; 2534; 2662; 2790;
    2918; 3046; 3174; 3302; 3430; 3558; 3664; 3792;
    3872; 4160; 4240; 6112; 6160; 6470; 6608; 6784;
    6800; 6992; 7088; 7232; 7248; 42528; 43216; 43264;
    43472; 43504; 43600; 44016; 65296; 66720; 68912; 69734;
    69872; 69942; 70096; 70384; 70736; 70864; 71248; 71360;
    71472; 71904; 72016; 72784; 73040; 73120; 92768; 92864;
    93008; 120782; 120792; 120802; 120812; 120822; 123200; 123632;
    125264; 130032 ]%N.

Definition unicode_is_space (cp : N) : bool := existsb (N.eqb cp) unicode_spaces.

Definition unicode_decimal (cp : N) : option N :=
  match List.find (fun z => (z <=? cp) && (cp <? z + 10))%N unicode_decimal_zeros with
  | Some z => Some (cp - z)%N
  | None => None
  end.

(** The code points of a UTF-8 byte string; [None] when the bytes are not the
    encoding of a str. *)
Definition continuation (b : ascii) : option N :=
  let n := N_of_ascii b in
  if ((128 <=? n) && (n <=? 191))%N then Some (n - 128)%N else None.

Fixpoint utf8_decode (s : list ascii) : option (list N) :=
  match s with
  | [] => Some []
  | b0 :: rest =>
      let n0 := N_of_ascii b0 in
      if (n0 <? 128)%N then cons n0 <$> utf8_decode rest
      else if ((194 <=? n0) && (n0 <=? 223))%N then
        match rest with
        | b1 :: rest1 =>
            match continuation b1 with
            | Some c1 => cons ((n0 - 192) * 64 + c1)%N <$> utf8_decode rest1
            | None => None
            end
        | _ => None
        end
      else if ((224 <=? n0) && (n0 <=? 239))%N then
        match rest with
        | b1 :: b2 :: rest2 =>
            match continuation b1, continuation b2 with
            | Some c1, Some c2 =>
                let cp := ((n0 - 224) * 4096 + c1 * 64 + c2)%N in
                if ((cp <? 2048) || ((55296 <=? cp) && (cp <=? 57343)))%N then None
                else cons cp <$> utf8_decode rest2
            | _, _ => None
            end
        | _ => None
        end
      else if ((240 <=? n0) && (n0 <=? 244))%N then
        match rest with
        | b1 :: b2 :: b3 :: rest3 =>
            match continuation b1, continuation b2, continuation b3 with
            | Some c1, Some c2, Some c3 =>
                let cp := ((n0 - 240) * 262144 + c1 * 4096 + c2 * 64 + c3)%N in
                if ((cp <? 65536) || (1114111 <? cp))%N then None
                else cons cp <$> utf8_decode rest3
            | _, _, _ => None
            end
        | _ => None
        end
      else None
  end.

(** The replacement of one character. *)
Definition to_ascii_char (cp : N) : option ascii :=
  if (cp <? 127)%N then Some (ascii_of_N cp)
  else if unicode_is_space cp then Some " "%char
  else match unicode_decimal cp with
       | Some d => Some (ascii_of_N (48 + d))
       | None => None
       end.

Definition to_ascii_decimal (s : list ascii) : option (list ascii) :=
  match utf8_decode s with
  | Some cps => mapM to_ascii_char cps
  | None => None
  end.

Definition is_space (a : ascii) : bool :=
  let n := N_of_ascii a in
  (((9 <=? n) && (n <=? 13)) || (n =? 32))%N.

Definition digit_of (a : ascii) : option Z :=
  let n := N_of_ascii a in
  if ((48 <=? n) && (n <=? 57))%N then Some (Z.of_N n - 48) else None.

Definition is_digit (a : ascii) : bool :=
  match digit_of a with Some _ => true | None => false end.

Definition MAX_STR_DIGITS : N := 4300.

Fixpoint lstrip (s : list ascii) : list ascii :=
  match s with
  | c :: s' => if is_space c then lstrip s' else s
  | [] => []
  end.

Definition strip (s : list ascii) : list ascii := rev (lstrip (rev (lstrip s))).

Fixpoint parse_digits (acc : Z) (after_digit : bool) (s : list ascii) : option Z :=
  match s with
  | [] => if after_digit then Some acc else None
  | c :: s' =>
      match digit_of c with
      | Some d => parse_digits (acc * 10 + d) true s'
      | None =>
          if Ascii.eqb c "_" then
            if after_digit then parse_digits acc false s' else None
          else None
      end
  end.

Definition parse_number (s : list ascii) : option Z :=
  if (MAX_STR_DIGITS <? N.of_nat (length (List.filter is_digit s)))%N then None
  else parse_digits 0 false s.

Definition int_of_str (s : string) : option Z :=
  match to_ascii_decimal (list_ascii_of_string s) with
  | Some t =>
      match strip t with
      | c :: s' =>
          if Ascii.eqb c "-" then Z.opp <$> parse_number s'
          else if Ascii.eqb c "+" then parse_number s'
          else parse_number (c :: s')
      | [] => None
      end
  | None => None
  end.

(** [int(f)] for a float: truncation toward zero. *)
Definition int_of_float (f : pyfloat) : res Z :=
  match f with
  | FNan => raise ValueError
  | FInf _ => raise OverflowError
  | FFin m e => ret (if Z.leb 0 e then m * 2 ^ e else Z.quot m (2 ^ (- e)))
  end.

(** [int(v)]. *)
Definition py_int (v : pyval) : res Z :=
  match v with
  | PInt z => ret z
  | PBool b => ret (if b then 1 else 0)
  | PFloat f => int_of_float f
  | PStr s => match int_of_str s with Some z => ret z | None => raise ValueError end
  | PNone | PList _ | PDict _ => raise TypeError
  end.

(** [sep.join(items)]: every item must be a str. *)
Fixpoint all_str (items : list pyval) : res (list string) :=
  match items with
  | [] => ret []
  | PStr s :: rest => let* ss := all_str rest in ret (s :: ss)
  | _ :: _ => raise TypeError
  end.

Fixpoint join (sep : string) (ss : list string) : string :=
  match ss with
  | [] => ""
  | [s] => s
  | s :: rest => s +:+ sep +:+ join sep rest
  end.

Definition str_join (sep : string) (items : list pyval) : res string :=
  let* ss := all_str items in ret (join sep ss).

End Py.

Import Py.

(** ** HTTP calls and cooperative tasks *)

Module Http.

(** What an [httpx.AsyncClient] call is given.  [timeout = None] means that no
    [timeout=] argument is passed, so the client's own default applies. *)
Record request := Request {
  rq_method : string;
  rq_url : string;
  rq_headers : gmap string string;
  rq_json : option pyval;
  timeout : option pyfloat
}.

(** A received response; [json = None] when the body does not decode. *)
Record response := Response {
  status_code : Z;
  text : string;
  json : option pyval
}.

(** What the outside world does with a call: no response at all (connection
    error, timeout, ...) or a response. *)
Inductive http_outcome :=
| NoResponse (message : string)
| Responded (r : response).

(** [response.raise_for_status()]: httpx raises unless the status is 2xx. *)
Definition is_success (r : response) : bool :=
  Z.leb 200 (status_code r) && Z.leb (status_code r) 299.

Definition raise_for_status (r : response) : res unit :=
  if is_success r then ret tt
  else raise (HTTPStatusError (status_code r) (text r)).

(** [response.json()]. *)
Definition response_json (r : response) : res pyval :=
  match json r with
  | Some v => ret v
  | None => raise JSONDecodeError
  end.

(** A coroutine: it returns or raises, awaits an HTTP call, acquires or
    releases a permit of the module's semaphore, or calls a function of the
    module.  [Call name k] marks the place of the call in the control flow:
    what the callee does and gives is in [k]. *)
Inductive io (A : Type) :=
| Ret (r : res A)
| Await (req : request) (k : http_outcome -> io A)
| Acquire (k : io A)
| Release (k : io A)
| Call (name : string) (k : io A).
Arguments Ret {A} r.
Arguments Await {A} req k.
Arguments Acquire {A} k.
Arguments Release {A} k.
Arguments Call {A} name k.

Fixpoint io_bind {A B} (m : io A) (f : A -> io B) : io B :=
  match m with
  | Ret (inr a) => f a
  | Ret (inl e) => Ret (inl e)
  | Await req k => Await req (fun o => io_bind (k o) f)
  | Acquire k => Acquire (io_bind k f)
  | Release k => Release (io_bind k f)
  | Call name k => Call name (io_bind k f)
  end.

(** [try: body / except Exception as e: handler(e)]. *)
Fixpoint io_catch {A} (body : io A) (handler : pyexc -> io A) : io A :=
  match body with
  | Ret (inr a) => Ret (inr a)
  | Ret (inl e) => handler e
  | Await req k => Await req (fun o => io_catch (k o) handler)
  | Acquire k => Acquire (io_catch k handler)
  | Release k => Release (io_catch k handler)
  | Call name k => Call name (io_catch k handler)
  end.

(** The exit of [async with semaphore:]: the permit is released whether the
    body returned or raised. *)
Fixpoint io_finally_release {A} (body : io A) : io A :=
  match body with
  | Ret r => Release (Ret r)
  | Await req k => Await req (fun o => io_finally_release (k o))
  | Acquire k => Acquire (io_finally_release k)
  | Release k => Release (io_finally_release k)
  | Call name k => Call name (io_finally_release k)
  end.

Definition async_with_semaphore {A} (body : io A) : io A :=
  Acquire (io_finally_release body).

(** [await client.get(...)] and the like: a transport failure raises. *)
Definition send (req : request) : io response :=
  Await req (fun o =>
    match o with
    | NoResponse msg => Ret (raise (TransportError msg))
    | Responded r => Ret (ret r)
    end).

Definition lift {A} (r : res A) : io A := Ret r.

(** [issues m req]: on some run of the coroutine [m], whatever the answers it
    gets, the HTTP call [req] is made. *)
Inductive issues {A} : io A -> request -> Prop :=
| issues_here req k : issues (Await req k) req
| issues_later req k o req' : issues (k o) req' -> issues (Await req k) req'
| issues_acquire k req : issues k req -> issues (Acquire k) req
| issues_release k req : issues k req -> issues (Release k) req
| issues_call name k req : issues k req -> issues (Call name k) req.

(** A coroutine run on its own: each awaited call is answered by [world];
    with no other task around, the semaphore is never contended. *)
Fixpoint io_run {A} (world : request -> http_outcome) (m : io A) : res A :=
  match m with
  | Ret r => r
  | Await req k => io_run world (k (world req))
  | Acquire k | Release k | Call _ k => io_run world k
  end.

(** What a coroutine does, in order, on the run in which each awaited call
    is answered by [world]. *)
Inductive event :=
| EvAcquire
| EvRelease
| EvAwait (req : request)
| EvCall (name : string).

Fixpoint trace {A} (world : request -> http_outcome) (m : io A) : list event :=
  match m with
  | Ret _ => []
  | Await req k => EvAwait req :: trace world (k (world req))
  | Acquire k => EvAcquire :: trace world k
  | Release k => EvRelease :: trace world k
  | Call name k => EvCall name :: trace world k
  end.

End Http.

Import Http.

Notation "'do*' x := m 'in' k" := (io_bind m (fun x => k))
  (at level 10, x name, m at level 100, k at level 200).

(** ** Tasks on the event loop: [asyncio.gather] and [asyncio.Semaphore]

    One worker interleaves the tasks.  A step runs one task up to its next
    suspension point or call mark; which task steps next is the schedule, a
    list of task indices.  A step of a task that cannot move (waiting for a
    permit, or finished) leaves the pool unchanged. *)

Module Asyncio.

Section Pool.
Context {A : Type}.

(** [held]: the permits the task has acquired and not yet released;
    [finished]: the event loop has collected the task's result. *)
Record task := Task {
  code : io A;
  held : nat;
  finished : bool
}.

(** [permits]: the semaphore's counter; [first_exc]: the first exception a
    finished task raised, which is what [gather] raises. *)
Record pool := Pool {
  permits : nat;
  tasks : list task;
  first_exc : option pyexc
}.

Definition init_pool (limit : nat) (coros : list (io A)) : pool :=
  Pool limit (map (fun c => Task c 0 false) coros) None.

Definition step (world : nat -> request -> http_outcome) (i : nat) (p : pool)
    : option pool :=
  match tasks p !! i with
  | Some (Task c h false) =>
      match c with
      | Ret r =>
          Some (Pool (permits p) (<[i := Task c h true]> (tasks p))
                  (match first_exc p, r with
                   | None, inl e => Some e
                   | fe, _ => fe
                   end))
      | Await req k =>
          Some (Pool (permits p) (<[i := Task (k (world i req)) h false]> (tasks p))
                  (first_exc p))
      | Acquire k =>
          match permits p with
          | S n => Some (Pool n (<[i := Task k (S h) false]> (tasks p)) (first_exc p))
          | O => None
          end
      | Release k =>
          Some (Pool (S (permits p)) (<[i := Task k (Nat.pred h) false]> (tasks p))
                  (first_exc p))
      | Call _ k =>
          Some (Pool (permits p) (<[i := Task k h false]> (tasks p)) (first_exc p))
      end
  | _ => None
  end.

Fixpoint run (world : nat -> request -> http_outcome) (sched : list nat) (p : pool)
    : pool :=
  match sched with
  | [] => p
  | i :: sched' =>
      run world sched' (match step world i p with Some p' => p' | None => p end)
  end.

(** What a task does when it takes the step at the head of its code; the
    step that collects an ended task does nothing. *)
Definition step_event (c : io A) : option event :=
  match c with
  | Ret _ => None
  | Await req _ => Some (EvAwait req)
  | Acquire _ => Some EvAcquire
  | Release _ => Some EvRelease
  | Call name _ => Some (EvCall name)
  end.

(** The events of a run in the order they happened, each with the index of
    the task that made it. *)
Fixpoint log (world : nat -> request -> http_outcome) (sched : list nat) (p : pool)
    : list (nat * event) :=
  match sched with
  | [] => []
  | i :: sched' =>
      match step world i p with
      | Some p' =>
          match tasks p !! i with
          | Some t =>
              match step_event (code t) with
              | Some ev => [(i, ev)]
              | None => []
              end
          | None => []
          end ++ log world sched' p'
      | None => log world sched' p
      end
  end.

(** The value of a finished task that returned. *)
Definition task_value (t : task) : option A :=
  match t with
  | Task (Ret (inr a)) _ true => Some a
  | _ => None
  end.

(** What awaiting [asyncio.gather] on the tasks gives once it resumes: the first
    exception raised, or, when every task has finished, the values in the
    order of the tasks.  [None]: still waiting. *)
Definition gather_result (p : pool) : option (res (list A)) :=
  match first_exc p with
  | Some e => Some (raise e)
  | None =>
      match mapM task_value (tasks p) with
      | Some vs => Some (ret vs)
      | None => None
      end
  end.

(** Calls awaited at this moment, and permits handed out. *)
Definition awaiting (t : task) : bool :=
  match code t with
  | Await _ _ => true
  | _ => false
  end.

Definition in_flight (p : pool) : nat := length (List.filter awaiting (tasks p)).

(** The task is at the call of the function [name]. *)
Definition calling (name : string) (t : task) : bool :=
  match code t with
  | Call n _ => String.eqb n name
  | _ => false
  end.

Definition permits_held (p : pool) : nat := list_sum (map held (tasks p)).

End Pool.

Arguments task : clear implicits.
Arguments pool : clear implicits.

(** The events of task [i] in a log. *)
Definition events_of (i : nat) (l : list (nat * event)) : list event :=
  map snd (List.filter (fun x => Nat.eqb (fst x) i) l).

End Asyncio.

Import Asyncio.

(** ** properties.py *)

Module Properties.

(** Configuration constants. *)
Definition REQUEST_TIMEOUT : pyfloat := FFin 30 0.
Definition CONCURRENCY_LIMIT : nat := 4.

(** [MLS_API_URL] and [MLS_AUTH_TOKEN], as [os.getenv] gives them. *)
Record mls_config := MlsConfig {
  MLS_API_URL : option string;
  MLS_AUTH_TOKEN : option string
}.

Definition MLS_CONFIGURED (cfg : mls_config) : bool :=
  opt_truthy (MLS_API_URL cfg) && opt_truthy (MLS_AUTH_TOKEN cfg).

(** The dict [transform_property] returns, one field per key. *)
Record property_view := PropertyView {
  id : pyval;
  images : list pyval;
  price : pyval;
  address : string;
  added : pyval;
  beds : Z;
  baths : Z;
  parking : Z;
  sqft : pyval;
  location : pyval;
  areaCode : pyval;
  propertyType : pyval;
  availableDate : pyval;
  leaseTerms : pyval;
  description : pyval
}.

Definition address_parts (mls_property : gmap string pyval) : list pyval :=
  [ dict_get mls_property "PropertyAddress" (PStr "");
    dict_get mls_property "City" (PStr "");
    dict_get mls_property "StateOrProvince" (PStr "");
    dict_get mls_property "PostalCode" (PStr "");
    py_or (dict_get mls_property "Country" (PStr "")) (PStr "CA") ].

Definition address_str (mls_property : gmap string pyval) : res string :=
  str_join ", " (List.filter truthy (address_parts mls_property)).

Definition transform_property
    (mls_property : gmap string pyval) (media_urls : option (list pyval))
    : res property_view :=
  let media_urls := match media_urls with Some l => l | None => [] end in
  (* Build formatted address *)
  let* address_str := address_str mls_property in
  let* beds := py_int (py_or (dict_get mls_property "BedroomsTotal" (PInt 0)) (PInt 0)) in
  let* baths := py_int (py_or (dict_get mls_property "BathroomsTotalInteger" (PInt 0)) (PInt 0)) in
  let* parking := py_int (py_or (dict_get mls_property "ParkingTotal" (PInt 0)) (PInt 0)) in
  ret {|
    id := dict_get mls_property "ListingKey" (PStr "");
    images := media_urls;
    price := dict_get mls_property "ListPrice" (PStr "");
    address := address_str;
    added := dict_get mls_property "ListingContractDate" (PStr "");
    beds := beds;
    baths := baths;
    parking := parking;
    sqft := dict_get mls_property "LivingArea" (PStr "");
    location := dict_get mls_property "City" (PStr "");
    areaCode := dict_get mls_property "Area" (PStr "");
    propertyType := dict_get mls_property "PropertyType" (PStr "");
    availableDate := dict_get mls_property "AvailableDate" (PStr "");
    leaseTerms := dict_get mls_property "LeaseTerm" (PStr "");
    description :=
      py_or (py_or (dict_get mls_property "PublicRemarks" (PStr ""))
                   (dict_get mls_property "PrivateRemarks" (PStr "")))
            (PStr "")
  |}.

Section Runtime.

(** Two renderings of the Python runtime: [repr] of floats and containers,
    and [str(e)] of an exception. *)
Variable py_repr : pyval -> string.
Variable str_of_exc : pyexc -> string.

(** What an f-string puts for [{v}]. *)
Definition py_str (v : pyval) : string :=
  match v with
  | PStr s => s
  | PInt z => str_of_int z
  | PNone => "None"
  | PBool true => "True"
  | PBool false => "False"
  | _ => py_repr v
  end.

Definition build_filters
    (city : option string) (min_price max_price : option pyfloat)
    (min_beds max_beds min_baths max_baths : option Z)
    (property_type : option string) : list string :=
  let filters :=
    [ "PropertyType eq 'Residential Freehold'";
      "RentalApplicationYN eq true";
      "OriginatingSystemName eq 'Toronto Regional Real Estate Board'" ] in
  (* Location filter *)
  let filters :=
    match city with
    | Some c =>
        if negb (String.eqb c "")
        then filters ++ ["contains(City, '" +:+ c +:+ "')"]
        else filters
    | None => filters
    end in
  (* Price filters *)
  let filters :=
    match min_price with
    | Some p => filters ++ ["ListPrice ge " +:+ py_str (PFloat p)]
    | None => filters
    end in
  let filters :=
    match max_price with
    | Some p => filters ++ ["ListPrice le " +:+ py_str (PFloat p)]
    | None => filters
    end in
  (* Bedroom filters *)
  let filters :=
    match min_beds with
    | Some n => filters ++ ["BedroomsTotal ge " +:+ py_str (PInt n)]
    | None => filters
    end in
  let filters :=
    match max_beds with
    | Some n => filters ++ ["BedroomsTotal le " +:+ py_str (PInt n)]
    | None => filters
    end in
  (* Bathroom filters *)
  let filters :=
    match min_baths with
    | Some n => filters ++ ["BathroomsTotalInteger ge " +:+ py_str (PInt n)]
    | None => filters
    end in
  let filters :=
    match max_baths with
    | Some n => filters ++ ["BathroomsTotalInteger le " +:+ py_str (PInt n)]
    | None => filters
    end in
  filters.

Definition build_filter_str
    (city : option string) (min_price max_price : option pyfloat)
    (min_beds max_beds min_baths max_baths : option Z)
    (property_type : option string) : string :=
  join " and "
    (build_filters city min_price max_price min_beds max_beds
       min_baths max_baths property_type).

Definition mls_headers (cfg : mls_config) : gmap string string :=
  {[ "Authorization" := "Bearer " +:+ str_of_opt (MLS_AUTH_TOKEN cfg);
     "Accept" := "application/json" ]}.

Definition fetch_mls_data (cfg : mls_config) (url : string) : io pyval :=
  if negb (MLS_CONFIGURED cfg) then
    Ret (raise (HTTPException 503 "MLS API not configured."))
  else
    do* response := send (Request "GET" url (mls_headers cfg) None (Some REQUEST_TIMEOUT)) in
    do* _ := lift (raise_for_status response) in
    do* body := lift (response_json response) in
    lift (py_get body "value" (PList [])).

(** [[item.get("MediaURL", "") for item in media_data if item.get("MediaURL")]] *)
Fixpoint media_urls_of (items : list pyval) : res (list pyval) :=
  match items with
  | [] => ret []
  | item :: rest =>
      let* cond := py_get item "MediaURL" PNone in
      if truthy cond then
        let* u := py_get item "MediaURL" (PStr "") in
        let* us := media_urls_of rest in
        ret (u :: us)
      else media_urls_of rest
  end.

Definition fetch_largest_media (cfg : mls_config) (listing_key : pyval) : io (list pyval) :=
  if negb (MLS_CONFIGURED cfg) then Ret (ret [])
  else
    io_catch
      (let url := str_of_opt (MLS_API_URL cfg)
                  +:+ "/Media?$filter=ResourceRecordKey eq '" +:+ py_str listing_key
                  +:+ "' and LargePhotoExists eq true&$orderby=Order" in
       do* response := send (Request "GET" url (mls_headers cfg) None (Some REQUEST_TIMEOUT)) in
       do* _ := lift (raise_for_status response) in
       do* body := lift (response_json response) in
       do* media_data := lift (py_get body "value" (PList [])) in
       lift (let* items := py_iter media_data in media_urls_of items))
      (fun e => Ret (ret [])).

Definition get_transformed_property (cfg : mls_config) (mls_property : pyval)
    : io (option property_view) :=
  match mls_property with
  | PDict d =>
      let listing_key := dict_get d "ListingKey" PNone in
      if negb (truthy listing_key) then Ret (ret None)
      else
        do* media_urls :=
          async_with_semaphore
            (Call "fetch_largest_media" (fetch_largest_media cfg listing_key)) in
        do* view :=
          Call "transform_property" (lift (transform_property d (Some media_urls))) in
        Ret (ret (Some view))
  | _ => Ret (raise AttributeError)
  end.

(** The handlers of [get_properties]: an [HTTPException] is re-raised as it
    is, any other exception becomes a 500. *)
Definition get_properties_except {A} (r : res A) : res A :=
  match r with
  | inl (HTTPException _ _) => r
  | inl e => raise (HTTPException 500 ("Error fetching properties: " +:+ str_of_exc e))
  | inr _ => r
  end.

Definition get_properties_url (cfg : mls_config) (limit : Z) (filter_str : string) : string :=
  let url := str_of_opt (MLS_API_URL cfg) +:+ "/Property?$top=" +:+ py_str (PInt limit) in
  if negb (String.eqb filter_str "") then url +:+ "&$filter=" +:+ filter_str else url.

(** [[result for result in results if result is not None]] *)
Definition not_None_results {B} (results : list (option B)) : list B :=
  omap (fun result => result) results.

(** The fan-out of [get_properties]: one task per listing, all handed to
    [gather], then the [None] results dropped.  [media_world i] answers the
    media fetch of the [i]-th task and [sched] is the order in which the event
    loop steps the tasks; the result is [None] when [sched] stops before
    [gather] resumes.  The semaphore starts full: no other request is in its
    fan-out at the same time. *)
Definition enrich_all (cfg : mls_config) (mls_properties : list pyval)
    (media_world : nat -> request -> http_outcome) (sched : list nat)
    : option (res (list property_view)) :=
  (* Transform properties concurrently *)
  let tasks := map (get_transformed_property cfg) mls_properties in
  match gather_result (run media_world sched (init_pool CONCURRENCY_LIMIT tasks)) with
  | None => None
  | Some (inl e) => Some (raise e)
  | Some (inr results) =>
      (* Filter out None results *)
      Some (ret (not_None_results results))
  end.

(** [GET /properties]; [listing_world] answers the listing fetch. *)
Definition get_properties (cfg : mls_config) (limit : Z)
    (city : option string) (min_price max_price : option pyfloat)
    (min_beds max_beds min_baths max_baths : option Z)
    (property_type : option string)
    (listing_world : request -> http_outcome)
    (media_world : nat -> request -> http_outcome) (sched : list nat)
    : option (res (list property_view)) :=
  let body : option (res (list property_view)) :=
    let filter_str :=
      build_filter_str city min_price max_price min_beds max_beds
        min_baths max_baths property_type in
    let url := get_properties_url cfg limit filter_str in
    match io_run listing_world (fetch_mls_data cfg url) with
    | inl e => Some (raise e)
    | inr mls_properties =>
        if negb (truthy mls_properties) then Some (ret [])
        else
          match py_iter mls_properties with
          | inl e => Some (raise e)
          | inr props => enrich_all cfg props media_world sched
          end
    end in
  get_properties_except <$> body.

(** [GET /properties/{property_id}] returns one of two dicts: [{"error": ...}]
    or the transformed listing. *)
Inductive by_id_result :=
| ByIdError (error : string)
| ByIdView (view : property_view).

(** [if not v: ...] followed by [v[0]]: [None] when [v] is falsy, where the
    handler returns before indexing; otherwise what [v[0]] gives.  A list
    gives its first item, a str its first character, a dict (whose keys are
    strs) has no key 0, and a number is not subscriptable. *)
Definition first_item (v : pyval) : option (res pyval) :=
  if negb (truthy v) then None
  else
    Some match v with
         | PList (x :: _) => ret x
         | PStr (String c _) => ret (PStr (String c ""))
         | PDict _ => raise (KeyError "0")
         | _ => raise TypeError
         end.

(** [transform_property] called on a value that may not be a dict: the first
    [.get] raises on anything else. *)
Definition transform_value (mls_property : pyval) (media_urls : option (list pyval))
    : res property_view :=
  match mls_property with
  | PDict d => transform_property d media_urls
  | _ => raise AttributeError
  end.

(** The handlers of [get_property_by_id]: an [HTTPException] is re-raised,
    any other exception is returned as an error body. *)
Definition get_property_by_id_except (e : pyexc) : io by_id_result :=
  match e with
  | HTTPException _ _ => Ret (raise e)
  | _ => Ret (ret (ByIdError ("Error fetching property: " +:+ str_of_exc e)))
  end.

Definition get_property_by_id (cfg : mls_config) (property_id : string)
    : io by_id_result :=
  io_catch
    (let url := str_of_opt (MLS_API_URL cfg)
                +:+ "/Property?$filter=ListingKey eq '" +:+ property_id +:+ "'" in
     do* mls_properties := Call "fetch_mls_data" (fetch_mls_data cfg url) in
     match first_item mls_properties with
     | None => Ret (ret (ByIdError "Property not found"))
     | Some first =>
         do* mls_property := lift first in
         do* images :=
           Call "fetch_largest_media" (fetch_largest_media cfg (PStr property_id)) in
         do* view :=
           Call "transform_property"
             (lift (transform_value mls_property (Some images))) in
         Ret (ret (ByIdView view))
     end)
    get_property_by_id_except.

(** The filter string [enhanced_search_properties] builds inline before it
    calls the property service. *)
Definition enhanced_search_filter_string
    (city : option string) (min_price max_price : option pyfloat)
    (min_beds max_beds min_baths max_baths : option Z) : string :=
  let filters :=
    [ "PropertyType eq 'Residential Freehold'";
      "RentalApplicationYN eq true";
      "OriginatingSystemName eq 'Toronto Regional Real Estate Board'" ] in
  (* Location filter *)
  let filters :=
    match city with
    | Some c =>
        if negb (String.eqb c "")
        then filters ++ ["contains(City, '" +:+ c +:+ "')"]
        else filters
    | None => filters
    end in
  (* Price filters *)
  let filters :=
    match min_price with
    | Some p => filters ++ ["ListPrice ge " +:+ py_str (PFloat p)]
    | None => filters
    end in
  let filters :=
    match max_price with
    | Some p => filters ++ ["ListPrice le " +:+ py_str (PFloat p)]
    | None => filters
    end in
  (* Bedroom filters *)
  let filters :=
    match min_beds with
    | Some n => filters ++ ["BedroomsTotal ge " +:+ py_str (PInt n)]
    | None => filters
    end in
  let filters :=
    match max_beds with
    | Some n => filters ++ ["BedroomsTotal le " +:+ py_str (PInt n)]
    | None => filters
    end in
  (* Bathroom filters *)
  let filters :=
    match min_baths with
    | Some n => filters ++ ["BathroomsTotalInteger ge " +:+ py_str (PInt n)]
    | None => filters
    end in
  let filters :=
    match max_baths with
    | Some n => filters ++ ["BathroomsTotalInteger le " +:+ py_str (PInt n)]
    | None => filters
    end in
  join " and " filters.

End Runtime.

End Properties.

Import Properties.

(** ** cart.py and wishlist.py *)

(** [SUPABASE_URL] and [SUPABASE_ANON_KEY], as [os.getenv] gives them. *)
Record supabase_config := SupabaseConfig {
  SUPABASE_URL : option string;
  SUPABASE_ANON_KEY : option string
}.

(** The two optional headers every handler adds: [apikey] when the key is
    set, [Authorization] when the incoming request carries one. *)
Definition add_auth_headers (cfg : supabase_config) (auth_header : option string)
    (headers : gmap string string) : gmap string string :=
  let headers :=
    if opt_truthy (SUPABASE_ANON_KEY cfg)
    then <["apikey" := str_of_opt (SUPABASE_ANON_KEY cfg)]> headers
    else headers in
  let headers :=
    if opt_truthy auth_header
    then <["Authorization" := str_of_opt auth_header]> headers
    else headers in
  headers.

(** [[entry["property_id"] for entry in rows]] *)
Fixpoint property_ids_of (rows : list pyval) : res (list pyval) :=
  match rows with
  | [] => ret []
  | entry :: rest =>
      let* pid := py_getitem entry "property_id" in
      let* pids := property_ids_of rest in
      ret (pid :: pids)
  end.

Module Cart.

Definition CART_ENDPOINT (cfg : supabase_config) : string :=
  str_of_opt (SUPABASE_URL cfg) +:+ "/rest/v1/cart".

Definition add_to_cart (cfg : supabase_config) (property_id user_id : string)
    (auth_header : option string) : io (gmap string pyval) :=
  let headers : gmap string string :=
    {[ "Content-Type" := "application/json"; "Prefer" := "return=representation" ]} in
  let headers := add_auth_headers cfg auth_header headers in
  let payload : gmap string pyval :=
    {[ "user_id" := PStr user_id; "property_id" := PStr property_id ]} in
  do* resp := send (Request "POST" (CART_ENDPOINT cfg) headers (Some (PDict payload)) None) in
  if Z.eqb (status_code resp) 201 || Z.eqb (status_code resp) 200 then
    Ret (ret {[ "ok" := PBool true ]})
  else if Z.eqb (status_code resp) 409 then
    Ret (ret {[ "ok" := PBool true; "message" := PStr "Already in cart" ]})
  else Ret (raise (HTTPException (status_code resp) (text resp))).

Definition remove_from_cart (cfg : supabase_config) (property_id user_id : string)
    (auth_header : option string) : io (gmap string pyval) :=
  let headers := add_auth_headers cfg auth_header ∅ in
  let url := CART_ENDPOINT cfg +:+ "?user_id=eq." +:+ user_id
             +:+ "&property_id=eq." +:+ property_id in
  do* resp := send (Request "DELETE" url headers None None) in
  if negb (Z.eqb (status_code resp) 204 || Z.eqb (status_code resp) 200) then
    Ret (raise (HTTPException (status_code resp) (text resp)))
  else Ret (ret {[ "ok" := PBool true ]}).

(** The loop under [# Validate user isolation]. *)
Fixpoint validate_user_isolation (user_id : string) (cart_rows : list pyval) : res unit :=
  match cart_rows with
  | [] => ret tt
  | entry :: rest =>
      let* owner := py_getitem entry "user_id" in
      if py_ne_str owner user_id then
        raise (HTTPException 500
                 "Data integrity error: cart contains items from other users")
      else validate_user_isolation user_id rest
  end.

Definition list_cart (cfg : supabase_config) (user_id : string)
    (auth_header : option string) : io (gmap string pyval) :=
  let headers := add_auth_headers cfg auth_header ∅ in
  let url := CART_ENDPOINT cfg +:+ "?user_id=eq." +:+ user_id in
  do* resp := send (Request "GET" url headers None None) in
  if negb (Z.eqb (status_code resp) 200) then
    Ret (raise (HTTPException (status_code resp) (text resp)))
  else
    do* cart_rows := lift (response_json resp) in
    do* rows := lift (py_iter cart_rows) in
    (* Validate user isolation *)
    do* _ := lift (validate_user_isolation user_id rows) in
    do* property_ids := lift (property_ids_of rows) in
    Ret (ret {[ "cart" := PList property_ids;
                "user_id" := PStr user_id;
                "count" := PInt (Z.of_nat (length property_ids)) ]}).

End Cart.

Module Wishlist.

Definition WISHLIST_ENDPOINT (cfg : supabase_config) : string :=
  str_of_opt (SUPABASE_URL cfg) +:+ "/rest/v1/wishlist".

Definition add_to_wishlist (cfg : supabase_config) (property_id user_id : string)
    (auth_header : option string) : io (gmap string pyval) :=
  let headers : gmap string string :=
    {[ "Content-Type" := "application/json"; "Prefer" := "return=representation" ]} in
  let headers := add_auth_headers cfg auth_header headers in
  let payload : gmap string pyval :=
    {[ "user_id" := PStr user_id; "property_id" := PStr property_id ]} in
  do* resp := send (Request "POST" (WISHLIST_ENDPOINT cfg) headers (Some (PDict payload)) None) in
  if negb (Z.eqb (status_code resp) 201 || Z.eqb (status_code resp) 200) then
    Ret (raise (HTTPException (status_code resp) (text resp)))
  else Ret (ret {[ "ok" := PBool true ]}).

Definition remove_from_wishlist (cfg : supabase_config) (property_id user_id : string)
    (auth_header : option string) : io (gmap string pyval) :=
  let headers := add_auth_headers cfg auth_header ∅ in
  let url := WISHLIST_ENDPOINT cfg +:+ "?user_id=eq." +:+ user_id
             +:+ "&property_id=eq." +:+ property_id in
  do* resp := send (Request "DELETE" url headers None None) in
  if negb (Z.eqb (status_code resp) 204 || Z.eqb (status_code resp) 200) then
    Ret (raise (HTTPException (status_code resp) (text resp)))
  else Ret (ret {[ "ok" := PBool true ]}).

Definition list_wishlist (cfg : supabase_config) (user_id : string)
    (auth_header : option string) : io (gmap string pyval) :=
  let headers := add_auth_headers cfg auth_header ∅ in
  let url := WISHLIST_ENDPOINT cfg +:+ "?user_id=eq." +:+ user_id in
  do* resp := send (Request "GET" url headers None None) in
  if negb (Z.eqb (status_code resp) 200) then
    Ret (raise (HTTPException (status_code resp) (text resp)))
  else
    do* wishlist := lift (response_json resp) in
    do* rows := lift (py_iter wishlist) in
    do* property_ids := lift (property_ids_of rows) in
    Ret (ret {[ "wishlist" := PList property_ids;
                "user_id" := PStr user_id;
                "count" := PInt (Z.of_nat (length property_ids)) ]}).

End Wishlist.


(** ** The routes of properties.py

    The decorators of the module, in the order they are written.  A request
    is handled by the first route whose method and path match; a path
    parameter matches any one non-empty segment.  A path is given by its
    segments after the router's prefix. *)

Module Router.

Inductive handler :=
| get_properties_route
| get_property_by_id_route
| get_properties_selected_fields_route
| get_property_route
| enhanced_search_properties_route
| get_property_media_with_fields_route
| get_property_media_simple_route.

Inductive segment :=
| Lit (s : string)
| Param (name : string).

Record route := Route {
  route_method : string;
  route_path : list segment;
  route_handler : handler
}.

Definition routes : list route :=
  [ Route "GET" [] get_properties_route;
    Route "GET" [Param "property_id"] get_property_by_id_route;
    Route "GET" [Lit "selected-fields"] get_properties_selected_fields_route;
    Route "GET" [Lit "get"; Param "property_id"] get_property_route;
    Route "GET" [Lit "enhanced-search"] enhanced_search_properties_route;
    Route "GET" [Lit "media"; Param "property_id"] get_property_media_with_fields_route;
    Route "GET" [Lit "media-simple"; Param "property_id"] get_property_media_simple_route ].

Fixpoint path_matches (pattern : list segment) (path : list string) : bool :=
  match pattern, path with
  | [], [] => true
  | Lit s :: pattern', x :: path' => String.eqb s x && path_matches pattern' path'
  | Param _ :: pattern', x :: path' => negb (String.eqb x "") && path_matches pattern' path'
  | _, _ => false
  end.

Definition route_matches (method : string) (path : list string) (r : route) : bool :=
  String.eqb (route_method r) method && path_matches (route_path r) path.

Definition dispatch (method : string) (path : list string) : option handler :=
  route_handler <$> List.find (route_matches method path) routes.

End Router.

(** * Vocabulary of the statements *)

Definition base_predicates : list string :=
  [ "PropertyType eq 'Residential Freehold'";
    "RentalApplicationYN eq true";
    "OriginatingSystemName eq 'Toronto Regional Real Estate Board'" ].

Definition base_filter_str : string :=
  "PropertyType eq 'Residential Freehold' and RentalApplicationYN eq true and OriginatingSystemName eq 'Toronto Regional Real Estate Board'".

(** The clause each criterion stands for; none when the criterion adds
    nothing. *)
Definition city_clause (city : option string) : list string :=
  match city with
  | Some c => if String.eqb c "" then [] else ["contains(City, '" +:+ c +:+ "')"]
  | None => []
  end.

Definition bound_clause (py_repr : pyval -> string) (field op : string)
    (bound : option pyval) : list string :=
  match bound with
  | Some v => [field +:+ " " +:+ op +:+ " " +:+ py_str py_repr v]
  | None => []
  end.

Definition optional_clauses (py_repr : pyval -> string)
    (city : option string) (min_price max_price : option pyfloat)
    (min_beds max_beds min_baths max_baths : option Z) : list string :=
  city_clause city
  ++ (bound_clause py_repr "ListPrice" "ge" (PFloat <$> min_price)
      ++ bound_clause py_repr "ListPrice" "le" (PFloat <$> max_price))
  ++ (bound_clause py_repr "BedroomsTotal" "ge" (PInt <$> min_beds)
      ++ bound_clause py_repr "BedroomsTotal" "le" (PInt <$> max_beds))
  ++ (bound_clause py_repr "BathroomsTotalInteger" "ge" (PInt <$> min_baths)
      ++ bound_clause py_repr "BathroomsTotalInteger" "le" (PInt <$> max_baths)).




Definition example_listing : gmap string pyval :=
  {[ "PropertyAddress" := PStr "123 Main";
     "City" := PStr "";
     "StateOrProvince" := PStr "ON";
     "PostalCode" := PStr "M1M1M1";
     "Country" := PStr "" ]}.

(** Values [int()] accepts. *)
Definition int_accepts (v : pyval) : bool :=
  match v with
  | PInt _ | PBool _ | PFloat (FFin _ _) => true
  | PStr s => match int_of_str s with Some _ => true | None => false end
  | _ => false
  end.

Definition is_str (v : pyval) : bool :=
  match v with PStr _ => true | _ => false end.

Definition absent_or_falsy (p : gmap string pyval) (key : string) : bool :=
  match p !! key with
  | Some v => negb (truthy v)
  | None => true
  end.

(** The source value of a count is absent, falsy, or accepted by [int()]. *)
Definition count_ok (p : gmap string pyval) (key : string) : bool :=
  match p !! key with
  | Some v => negb (truthy v) || int_accepts v
  | None => true
  end.

(** The source value of an address component is absent, falsy, or a str. *)
Definition part_ok (p : gmap string pyval) (key : string) : bool :=
  match p !! key with
  | Some v => negb (truthy v) || is_str v
  | None => true
  end.

Definition transformable (p : gmap string pyval) : bool :=
  part_ok p "PropertyAddress" && part_ok p "City" && part_ok p "StateOrProvince"
  && part_ok p "PostalCode" && part_ok p "Country"
  && count_ok p "BedroomsTotal" && count_ok p "BathroomsTotalInteger"
  && count_ok p "ParkingTotal".

(** A row of the cart or wishlist table, as the row store returns it. *)
Definition store_row (row : string * string) : pyval :=
  PDict {[ "user_id" := PStr (fst row); "property_id" := PStr (snd row) ]}.

(** The row store answers 200 with the given rows, as (owner, property)
    pairs. *)
Definition store_answers_rows (body : string) (rows : list (string * string))
    : request -> http_outcome :=
  fun _ => Responded (Response 200 body (Some (PList (map store_row rows)))).

(** Two rows of user A and one of user B. *)
Definition mixed_rows : list (string * string) :=
  [("A", "p1"); ("A", "p2"); ("B", "p3")].

(** A listing API that is configured, and a row store. *)
Definition example_mls : mls_config :=
  MlsConfig (Some "https://mls.example/odata") (Some "token").

Definition example_supabase : supabase_config :=
  SupabaseConfig (Some "https://db.example") (Some "anon").

(** A coroutine that follows the discipline of [async with semaphore:]
    around its awaits: it awaits only while holding its one permit, and ends
    holding none; it calls the media fetch while holding the permit and the
    transformer while holding none.  [h] is the number of permits held on
    entry. *)
Fixpoint disciplined {A} (h : nat) (c : io A) : Prop :=
  match c with
  | Ret _ => h = O
  | Await _ k => h = 1%nat /\ forall o, disciplined 1 (k o)
  | Acquire k => h = O /\ disciplined 1 k
  | Release k => h = 1%nat /\ disciplined 0 k
  | Call name k =>
      (name = "fetch_largest_media" -> h = 1%nat)
      /\ (name = "transform_property" -> h = O)
      /\ disciplined h k
  end.

(** A coroutine that ends within [n] steps. *)
Fixpoint depth_le {A} (n : nat) (c : io A) : Prop :=
  match c with
  | Ret _ => True
  | Await _ k =>
      match n with O => False | S n' => forall o, depth_le n' (k o) end
  | Acquire k | Release k | Call _ k =>
      match n with O => False | S n' => depth_le n' k end
  end.

(** Every task has been collected. *)
Definition all_finished {A} (p : pool A) : Prop :=
  Forall (fun t => finished t = true) (tasks p).

(** A listing has a listing key when the value under ["ListingKey"] is
    present and truthy. *)
Definition listing_key (d : gmap string pyval) : pyval := dict_get d "ListingKey" PNone.

Definition has_listing_key (d : gmap string pyval) : bool := truthy (listing_key d).

(** The image list the media fetch ends with under the answers [w]. *)
Definition fetched_media (py_repr : pyval -> string) (cfg : mls_config)
    (key : pyval) (w : request -> http_outcome) : list pyval :=
  match io_run w (fetch_largest_media py_repr cfg key) with
  | inr urls => urls
  | inl _ => []
  end.



(** What stays true of a pool started from the coroutines [coros] with
    [limit] permits, under the answers [world]. *)
Record pool_inv {A} (world : nat -> request -> http_outcome) (limit : nat)
    (coros : list (io A)) (p : pool A) : Prop := PoolInv {
  inv_permits : (permits p + permits_held p = limit)%nat;
  inv_length : length (tasks p) = length coros;
  inv_task : forall i t, tasks p !! i = Some t ->
    disciplined (held t) (code t)
    /\ (finished t = true -> exists r, code t = Ret r)
    /\ exists c, coros !! i = Some c
                 /\ io_run (world i) (code t) = io_run (world i) c;
  inv_exc : forall e, first_exc p = Some e ->
    exists i t, tasks p !! i = Some t /\ code t = Ret (inl e);
  inv_no_exc : first_exc p = None ->
    forall i t e, tasks p !! i = Some t -> finished t = true -> code t <> Ret (inl e)
}.


(** What the task of the listing at position [fst id] gives when run with
    its own answers: nothing for a listing without key, otherwise the
    transformer's result on the listing and the media fetched for it. *)
Definition task_outcome (py_repr : pyval -> string) (cfg : mls_config)
    (world : nat -> request -> http_outcome) (id : nat * gmap string pyval)
    : res (option property_view) :=
  if has_listing_key (snd id) then
    match transform_property (snd id)
            (Some (fetched_media py_repr cfg (listing_key (snd id)) (world (fst id)))) with
    | inl e => inl e
    | inr view => inr (Some view)
    end
  else ret None.




(** A batch of three: a listing with a key, one without, one with a key;
    the media fetch answers the first and fails for the others. *)
Definition example_batch : list (gmap string pyval) :=
  [ {[ "ListingKey" := PStr "K1"; "BedroomsTotal" := PInt 2 ]};
    {[ "City" := PStr "Toronto" ]};
    {[ "ListingKey" := PStr "K3" ]} ].

Definition example_media_world : nat -> request -> http_outcome :=
  fun i _ =>
    match i with
    | O => Responded (Response 200 "{...}"
             (Some (PDict {[ "value" :=
                PList [PDict {[ "MediaURL" := PStr "https://img.example/1.jpg" ]}] ]})))
    | _ => NoResponse "timed out"
    end.

(** A listing with a key whose bedroom count is not a number. *)
Definition bad_count_listing : gmap string pyval :=
  {[ "ListingKey" := PStr "K1"; "BedroomsTotal" := PStr "two" ]}.

(** One when the criterion is supplied. *)
Definition supplied {A} (o : option A) : nat :=
  match o with Some _ => 1%nat | None => O end.

Definition is_HTTPException (e : pyexc) : bool :=
  match e with HTTPException _ _ => true | _ => false end.

Definition is_dict (v : pyval) : bool :=
  match v with PDict _ => true | _ => false end.

(** The keys [transform_property] reads. *)
Definition relevant_keys : list string :=
  [ "PropertyAddress"; "City"; "StateOrProvince"; "PostalCode"; "Country";
    "ListingKey"; "ListPrice"; "ListingContractDate"; "BedroomsTotal";
    "BathroomsTotalInteger"; "ParkingTotal"; "LivingArea"; "Area"; "PropertyType";
    "AvailableDate"; "LeaseTerm"; "PublicRemarks"; "PrivateRemarks" ].

(** The media answer lists these items under ["value"]. *)
Definition media_answer (r : response) (items : list pyval) : Prop :=
  is_success r = true
  /\ exists env, json r = Some (PDict env) /\ env !! "value" = Some (PList items).

(** The URLs kept from well-formed media items: those whose ["MediaURL"] is
    truthy, in the order of the answer. *)
Definition kept_urls (items : list (gmap string pyval)) : list pyval :=
  map (fun item => dict_get item "MediaURL" (PStr ""))
    (List.filter (fun item => truthy (dict_get item "MediaURL" PNone)) items).

(** A listing API with no base URL. *)
Definition unconfigured_mls : mls_config := MlsConfig None (Some "token").

(** Two listings that differ only in a key the transformer does not read. *)
Definition listing_with_extra : gmap string pyval :=
  {[ "ListingKey" := PStr "K1"; "Heating" := PStr "Gas" ]}.

Definition listing_without_extra : gmap string pyval :=
  {[ "ListingKey" := PStr "K1" ]}.

(** The request of the media fetch for a listing key. *)
Definition media_request (py_repr : pyval -> string) (cfg : mls_config) (key : pyval)
    : request :=
  Request "GET"
    (str_of_opt (MLS_API_URL cfg) +:+ "/Media?$filter=ResourceRecordKey eq '"
     +:+ py_str py_repr key +:+ "' and LargePhotoExists eq true&$orderby=Order")
    (mls_headers cfg) None (Some REQUEST_TIMEOUT).

(** What the unit of work of a listing does, in order: nothing for a listing
    without key; otherwise it takes a permit, calls the media fetch (which
    awaits its one request when the listing API is configured), gives the
    permit back, and calls the transformer. *)
Definition unit_events (py_repr : pyval -> string) (cfg : mls_config)
    (d : gmap string pyval) : list event :=
  if has_listing_key d then
    [EvAcquire; EvCall "fetch_largest_media"]
    ++ (if MLS_CONFIGURED cfg
        then [EvAwait (media_request py_repr cfg (listing_key d))]
        else [])
    ++ [EvRelease; EvCall "transform_property"]
  else [].

(** The coroutine acquires or releases the semaphore on some run. *)
Fixpoint uses_semaphore {A} (c : io A) : Prop :=
  match c with
  | Ret _ => False
  | Await _ k => exists o, uses_semaphore (k o)
  | Acquire _ | Release _ => True
  | Call _ k => uses_semaphore k
  end.

(** The listing request of [get_property_by_id], and the body it returns for
    an exception it swallows. *)
Definition by_id_request (cfg : mls_config) (property_id : string) : request :=
  Request "GET"
    (str_of_opt (MLS_API_URL cfg) +:+ "/Property?$filter=ListingKey eq '"
     +:+ property_id +:+ "'")
    (mls_headers cfg) None (Some REQUEST_TIMEOUT).

Definition by_id_error (str_of_exc : pyexc -> string) (e : pyexc) : by_id_result :=
  ByIdError ("Error fetching property: " +:+ str_of_exc e).

(** The listing answer is a 2xx whose body is an object with [value] under
    ["value"], or with no such key when [value] is the empty list. *)
Definition listing_answer (r : response) (value : pyval) : Prop :=
  is_success r = true
  /\ exists env, json r = Some (PDict env) /\ dict_get env "value" (PList []) = value.

(** A world that answers the listing request of [get_property_by_id "K1"]
    with one listing and every other request with a failure. *)
Definition by_id_world : request -> http_outcome :=
  fun req =>
    if String.eqb (rq_url req)
         "https://mls.example/odata/Property?$filter=ListingKey eq 'K1'"
    then Responded (Response 200 ""
           (Some (PDict {[ "value" := PList [PDict {[ "ListingKey" := PStr "K1" ]}] ]})))
    else NoResponse "timed out".

(** A row of the cart table with its other columns: the owner, the property
    and whatever else the store returns for the row. *)
Definition table_row (row : string * string * gmap string pyval) : pyval :=
  PDict (<["user_id" := PStr (fst (fst row))]>
           (<["property_id" := PStr (snd (fst row))]> (snd row))).

Definition row_owner (row : string * string * gmap string pyval) : string := fst (fst row).
Definition row_property (row : string * string * gmap string pyval) : pyval :=
  PStr (snd (fst row)).

(** The status of the response is one of [codes]. *)
Definition status_in (codes : list Z) (r : response) : bool :=
  existsb (Z.eqb (status_code r)) codes.

(** What the caller's optional value becomes as a header: sent as it is when
    truthy, not sent otherwise. *)
Definition forwarded (o : option string) : option string :=
  if opt_truthy o then o else None.

(** * Properties *)

(** ** The filter builder *)

Lemma build_filters_segments py_repr city min_price max_price min_beds max_beds
    min_baths max_baths pt :
  build_filters py_repr city min_price max_price min_beds max_beds min_baths max_baths pt
  = base_predicates
    ++ optional_clauses py_repr city min_price max_price min_beds max_beds
         min_baths max_baths.
Proof.
  unfold build_filters, optional_clauses, city_clause.
  destruct city as [c|]; [destruct (String.eqb c "")|];
    destruct min_price, max_price, min_beds, max_beds, min_baths, max_baths;
    reflexivity.
Qed.

(** C6, as amended: with every optional field absent the filter is the three
    base predicates joined by " and "; one optional field alone (for the
    city: a non-empty string) appends exactly one clause; and in general the
    clauses come in the order base, city, price bounds, bed bounds, bath
    bounds. *)
Theorem build_filter_str_clauses (py_repr : pyval -> string) (pt : option string) :
  build_filter_str py_repr None None None None None None None pt = base_filter_str
  /\ base_filter_str = join " and " base_predicates
  /\ (forall c, c <> "" ->
        build_filter_str py_repr (Some c) None None None None None None pt
        = base_filter_str +:+ " and " +:+ "contains(City, '" +:+ c +:+ "')")
  /\ (forall p,
        build_filter_str py_repr None (Some p) None None None None None pt
        = base_filter_str +:+ " and " +:+ "ListPrice ge " +:+ py_str py_repr (PFloat p))
  /\ (forall p,
        build_filter_str py_repr None None (Some p) None None None None pt
        = base_filter_str +:+ " and " +:+ "ListPrice le " +:+ py_str py_repr (PFloat p))
  /\ (forall n,
        build_filter_str py_repr None None None (Some n) None None None pt
        = base_filter_str +:+ " and " +:+ "BedroomsTotal ge " +:+ str_of_int n)
  /\ (forall n,
        build_filter_str py_repr None None None None (Some n) None None pt
        = base_filter_str +:+ " and " +:+ "BedroomsTotal le " +:+ str_of_int n)
  /\ (forall n,
        build_filter_str py_repr None None None None None (Some n) None pt
        = base_filter_str +:+ " and " +:+ "BathroomsTotalInteger ge " +:+ str_of_int n)
  /\ (forall n,
        build_filter_str py_repr None None None None None None (Some n) pt
        = base_filter_str +:+ " and " +:+ "BathroomsTotalInteger le " +:+ str_of_int n)
  /\ (forall city min_price max_price min_beds max_beds min_baths max_baths,
        build_filter_str py_repr city min_price max_price min_beds max_beds
          min_baths max_baths pt
        = join " and "
            (base_predicates
             ++ optional_clauses py_repr city min_price max_price min_beds max_beds
                  min_baths max_baths)).
Proof.
  repeat split; try reflexivity.
  - intros c Hc. destruct c as [|a c]; [contradiction | reflexivity].
  - intros. unfold build_filter_str. now rewrite build_filters_segments.
Qed.

Lemma build_filter_str_clauses_witness :
  build_filter_str (fun _ => "") (Some "Toronto") None None None None None None None
  = base_filter_str +:+ " and " +:+ "contains(City, 'Toronto')".
Proof.
  apply (proj1 (proj2 (proj2 (build_filter_str_clauses (fun _ => "") None)))).
  discriminate.
Defined.

(** C6 as stated fails for the city: an empty-string city is present, yet no
    clause is appended. *)
Lemma build_filter_str_empty_city_no_clause :
  build_filter_str (fun _ => "") (Some "") None None None None None None None
  = base_filter_str
  /\ ~ (exists clause,
         build_filters (fun _ => "") (Some "") None None None None None None None
         = base_predicates ++ [clause]).
Proof. split; [reflexivity | intros [clause H]; discriminate H]. Qed.

(** ** The property transformer *)



Lemma transform_property_address p imgs v :
  transform_property p imgs = ret v -> address_str p = ret (address v).
Proof.
  unfold transform_property. destruct (address_str p) as [e|a]; simpl; [discriminate|].
  destruct (py_int _) as [e|b1]; simpl; [discriminate|].
  destruct (py_int _) as [e|b2]; simpl; [discriminate|].
  destruct (py_int _) as [e|b3]; simpl; [discriminate|].
  intros [= <-]. reflexivity.
Qed.

Lemma all_str_filter_truthy (l : list pyval) :
  (exists ss, all_str (List.filter truthy l) = ret ss)
  <-> forallb (fun v => negb (truthy v) || is_str v) l = true.
Proof.
  induction l as [|v l IH]; simpl.
  - split; [reflexivity | now exists []].
  - destruct (truthy v) eqn:Hv; simpl.
    + destruct v; simpl; try (split; [intros [ss H]; discriminate H | discriminate]).
      rewrite <- IH. split.
      * intros [ss H]. destruct (all_str _) as [e|ss']; [discriminate | now exists ss'].
      * intros [ss H]. rewrite H. now eexists.
    + exact IH.
Qed.

Lemma part_ok_get p key :
  part_ok p key = (fun v => negb (truthy v) || is_str v) (dict_get p key (PStr "")).
Proof. unfold part_ok, dict_get. now destruct (p !! key). Qed.

Lemma address_str_returns p :
  (exists a, address_str p = ret a)
  <-> part_ok p "PropertyAddress" && part_ok p "City" && part_ok p "StateOrProvince"
      && part_ok p "PostalCode" && part_ok p "Country" = true.
Proof.
  unfold address_str, str_join.
  transitivity (exists ss, all_str (List.filter truthy (address_parts p)) = ret ss).
  - split; intros [x H].
    + destruct (all_str _) as [e|ss]; [discriminate | now exists ss].
    + rewrite H. now eexists.
  - rewrite all_str_filter_truthy. unfold address_parts. simpl.
    rewrite !part_ok_get.
    set (country := dict_get p "Country" (PStr "")).
    replace (negb (truthy (py_or country (PStr "CA"))) || is_str (py_or country (PStr "CA")))
      with (negb (truthy country) || is_str country).
    + rewrite andb_true_r, !andb_assoc. reflexivity.
    + unfold py_or. destruct (truthy country) eqn:Hc; [now rewrite Hc | reflexivity].
Qed.

(** [int()] on strings, as CPython reads them: surrounding whitespace is the
    ASCII one (tab to carriage return, and space) and the Unicode one above
    ASCII, so the separators 28 to 31 are not stripped; the decimal digits
    of any script count (U+0663 is the Arabic-Indic three, U+00A0 the
    no-break space); a sign comes once; underscores stand between digits. *)
Example int_of_str_examples :
  int_of_str (String "028" "5") = None
  /\ int_of_str (String "217" (String "163" "")) = Some 3
  /\ int_of_str (String "194" (String "160" "7")) = Some 7
  /\ int_of_str (String "011" " 12 ") = Some 12
  /\ int_of_str "-0042" = Some (-42)
  /\ int_of_str "1_000" = Some 1000
  /\ int_of_str "1__0" = None
  /\ int_of_str "+-3" = None
  /\ int_of_str "2.0" = None
  /\ int_of_str "" = None.
Proof. repeat split; vm_compute; reflexivity. Qed.

Lemma count_returns p key :
  (exists z, py_int (py_or (dict_get p key (PInt 0)) (PInt 0)) = ret z)
  <-> count_ok p key = true.
Proof.
  unfold count_ok, dict_get, py_or.
  destruct (p !! key) as [v|]; [|split; [reflexivity | now exists 0]].
  destruct (truthy v) eqn:Hv; simpl; [|split; [reflexivity | now exists 0]].
  destruct v as [| b | z | [| n | m e] | s | l | d]; simpl;
    try (split; [intros [z' H]; discriminate H | discriminate]);
    try (split; [reflexivity | now eexists]).
  destruct (int_of_str s); simpl;
    [split; [reflexivity | now eexists] | split; [intros [z' H]; discriminate H | discriminate]].
Qed.

Lemma count_zero p key z :
  py_int (py_or (dict_get p key (PInt 0)) (PInt 0)) = ret z ->
  absent_or_falsy p key = true -> z = 0.
Proof.
  unfold absent_or_falsy, dict_get, py_or.
  destruct (p !! key) as [v|]; simpl.
  - intros H Hf. apply negb_true_iff in Hf. rewrite Hf in H. now injection H.
  - intros H _. now injection H.
Qed.

Lemma transformable_iff_returns p imgs :
  (exists v, transform_property p imgs = ret v) <-> transformable p = true.
Proof.
  unfold transformable. do 3 rewrite andb_true_iff.
  rewrite <- address_str_returns, <- !count_returns.
  unfold transform_property. split.
  - intros [v H].
    destruct (address_str p) as [e|a]; simpl in H; [discriminate|].
    destruct (py_int _) as [e|b1]; simpl in H; [discriminate|].
    destruct (py_int _) as [e|b2]; simpl in H; [discriminate|].
    destruct (py_int _) as [e|b3]; simpl in H; [discriminate|].
    repeat split; eexists; reflexivity.
  - intros [[[[a Ha] [b1 H1]] [b2 H2]] [b3 H3]].
    rewrite Ha, H1, H2, H3. simpl. now eexists.
Qed.

(** C2, as amended: for every mapping whose address components are absent,
    falsy or strings and whose bed, bath and parking values are absent, falsy
    or accepted by int(), whatever the image list, the transformer returns a
    view without raising; the view carries the images given (none when no
    list is supplied), and beds, baths and parking are zero whenever the
    corresponding source value is absent or falsy.  On every other mapping
    (a truthy count that int() rejects, a truthy address component that is
    not a string) it raises. *)
Theorem transform_property_returns p imgs :
  (transformable p = true ->
   exists v, transform_property p imgs = ret v
     /\ images v = match imgs with Some l => l | None => [] end
     /\ (absent_or_falsy p "BedroomsTotal" = true -> beds v = 0)
     /\ (absent_or_falsy p "BathroomsTotalInteger" = true -> baths v = 0)
     /\ (absent_or_falsy p "ParkingTotal" = true -> parking v = 0))
  /\ (transformable p = false -> exists e, transform_property p imgs = raise e).
Proof.
  split.
  2:{ intros Hp. destruct (transform_property p imgs) as [e|v] eqn:Hv; [now exists e|].
      assert (Ht : transformable p = true)
        by (apply (transformable_iff_returns p imgs); eauto).
      congruence. }
  intros Hp. apply (transformable_iff_returns p imgs) in Hp.
  destruct Hp as [v Hv]. exists v. split; [exact Hv|].
  unfold transform_property in Hv.
  destruct (address_str p) as [e|a]; simpl in Hv; [discriminate|].
  destruct (py_int _) as [e|b1] eqn:H1; simpl in Hv; [discriminate|].
  destruct (py_int _) as [e|b2] eqn:H2 in Hv; simpl in Hv; [discriminate|].
  destruct (py_int _) as [e|b3] eqn:H3 in Hv; simpl in Hv; [discriminate|].
  injection Hv as <-. simpl.
  repeat split; eauto using count_zero.
Qed.

(** The entirely empty mapping with no image list; and a bedroom count that
    [int()] rejects, the digit 5 after the separator of code 28. *)
Lemma transform_property_returns_witness :
  (exists v, transform_property ∅ None = ret v
     /\ images v = []
     /\ (absent_or_falsy ∅ "BedroomsTotal" = true -> beds v = 0)
     /\ (absent_or_falsy ∅ "BathroomsTotalInteger" = true -> baths v = 0)
     /\ (absent_or_falsy ∅ "ParkingTotal" = true -> parking v = 0))
  /\ (exists e,
        transform_property {[ "BedroomsTotal" := PStr (String "028" "5") ]} None
        = raise e).
Proof.
  split.
  - apply (proj1 (transform_property_returns ∅ None)). reflexivity.
  - apply (proj2 (transform_property_returns
                    {[ "BedroomsTotal" := PStr (String "028" "5") ]} None)).
    vm_compute. reflexivity.
Defined.

(** C2 as stated fails: a non-numeric bedroom count makes the transformer
    raise instead of giving zero. *)
Lemma transform_property_raises_on_non_numeric :
  transform_property {[ "BedroomsTotal" := PStr "two" ]} None = raise ValueError
  /\ transform_property {[ "ParkingTotal" := PList [PInt 1] ]} (Some []) = raise TypeError.
Proof. split; vm_compute; reflexivity. Qed.



(** ** Coroutines run on their own *)

Lemma io_run_bind {A B} world (m : io A) (f : A -> io B) :
  io_run world (io_bind m f)
  = match io_run world m with
    | inl e => inl e
    | inr a => io_run world (f a)
    end.
Proof.
  induction m as [[e|a] | req k IH | k IH | k IH | name k IH]; simpl; auto.
Qed.

Lemma io_run_Call {A} world name (k : io A) : io_run world (Call name k) = io_run world k.
Proof. reflexivity. Qed.


(** ** Cart and wishlist *)

Lemma store_row_user_id row :
  py_getitem (store_row row) "user_id" = ret (PStr (fst row)).
Proof. reflexivity. Qed.

Lemma store_row_property_id row :
  py_getitem (store_row row) "property_id" = ret (PStr (snd row)).
Proof. reflexivity. Qed.

Lemma property_ids_of_rows rows :
  property_ids_of (map store_row rows) = ret (map (fun row => PStr (snd row)) rows).
Proof.
  induction rows as [|row rows IH]; [reflexivity|].
  cbn [map property_ids_of]. rewrite store_row_property_id, IH. reflexivity.
Qed.

Lemma validate_user_isolation_own user_id rows :
  Forall (fun row => fst row = user_id) rows ->
  Cart.validate_user_isolation user_id (map store_row rows) = ret tt.
Proof.
  induction 1 as [|row rows Hrow _ IH]; [reflexivity|].
  cbn [map Cart.validate_user_isolation]. rewrite store_row_user_id. simpl.
  rewrite Hrow, String.eqb_refl. exact IH.
Qed.

Lemma validate_user_isolation_foreign user_id rows :
  Exists (fun row => fst row <> user_id) rows ->
  Cart.validate_user_isolation user_id (map store_row rows)
  = raise (HTTPException 500 "Data integrity error: cart contains items from other users").
Proof.
  induction rows as [|row rows IH]; intros H; [inversion H|].
  cbn [map Cart.validate_user_isolation]. rewrite store_row_user_id. simpl.
  destruct (String.eqb (fst row) user_id) eqn:E; simpl; [|reflexivity].
  apply String.eqb_eq in E. apply IH.
  inversion H; subst; [contradiction | assumption].
Qed.

(** The cart listing: one foreign row among those returned and it raises the
    integrity error, returning nothing. *)
Lemma list_cart_rejects_foreign_rows cfg user_id auth body rows :
  Exists (fun row => fst row <> user_id) rows ->
  io_run (store_answers_rows body rows) (Cart.list_cart cfg user_id auth)
  = raise (HTTPException 500 "Data integrity error: cart contains items from other users").
Proof.
  intros H. unfold Cart.list_cart, store_answers_rows. simpl.
  now rewrite validate_user_isolation_foreign.
Qed.

Lemma list_cart_returns_own_rows cfg user_id auth body rows :
  Forall (fun row => fst row = user_id) rows ->
  io_run (store_answers_rows body rows) (Cart.list_cart cfg user_id auth)
  = ret {[ "cart" := PList (map (fun row => PStr (snd row)) rows);
           "user_id" := PStr user_id;
           "count" := PInt (Z.of_nat (length rows)) ]}.
Proof.
  intros H. unfold Cart.list_cart, store_answers_rows. simpl.
  rewrite validate_user_isolation_own by assumption.
  rewrite property_ids_of_rows. simpl. now rewrite length_map.
Qed.

(** C1: the wishlist listing has no isolation check.  Whatever the owners of
    the rows the store returns, it returns every property id; on two rows of
    user A and one of user B it answers user A with all three, where the
    cart raises the integrity error. *)
Theorem list_wishlist_returns_foreign_rows :
  (forall cfg user_id auth body rows,
      io_run (store_answers_rows body rows) (Wishlist.list_wishlist cfg user_id auth)
      = ret {[ "wishlist" := PList (map (fun row => PStr (snd row)) rows);
               "user_id" := PStr user_id;
               "count" := PInt (Z.of_nat (length rows)) ]})
  /\ (forall cfg auth body,
        io_run (store_answers_rows body mixed_rows) (Wishlist.list_wishlist cfg "A" auth)
        = ret {[ "wishlist" := PList [PStr "p1"; PStr "p2"; PStr "p3"];
                 "user_id" := PStr "A";
                 "count" := PInt 3 ]}
        /\ io_run (store_answers_rows body mixed_rows) (Cart.list_cart cfg "A" auth)
           = raise (HTTPException 500
                      "Data integrity error: cart contains items from other users")).
Proof.
  assert (G : forall cfg user_id auth body rows,
      io_run (store_answers_rows body rows) (Wishlist.list_wishlist cfg user_id auth)
      = ret {[ "wishlist" := PList (map (fun row => PStr (snd row)) rows);
               "user_id" := PStr user_id;
               "count" := PInt (Z.of_nat (length rows)) ]}).
  { intros. unfold Wishlist.list_wishlist, store_answers_rows. simpl.
    rewrite property_ids_of_rows. simpl. now rewrite length_map. }
  split; [exact G|]. intros cfg auth body. split.
  - apply (G cfg "A" auth body mixed_rows).
  - apply list_cart_rejects_foreign_rows. unfold mixed_rows.
    do 2 apply Exists_cons_tl. apply Exists_cons_hd. discriminate.
Qed.

(** C3: on a conflict answer (409) the wishlist raises the store's status and
    body, where the cart returns ok with the already-present note. *)
Theorem add_to_wishlist_conflict_raises :
  forall cfg property_id user_id auth body js,
    let conflict := fun _ : request => Responded (Response 409 body js) in
    io_run conflict (Wishlist.add_to_wishlist cfg property_id user_id auth)
    = raise (HTTPException 409 body)
    /\ io_run conflict (Cart.add_to_cart cfg property_id user_id auth)
       = ret {[ "ok" := PBool true; "message" := PStr "Already in cart" ]}.
Proof. intros. split; reflexivity. Qed.

(** ** The calls a coroutine issues *)

Lemma issues_Ret {A} (r : res A) req : ~ issues (Ret r) req.
Proof. intros H. inversion H. Qed.

Lemma issues_bind {A B} (m : io A) (f : A -> io B) req :
  issues (io_bind m f) req -> issues m req \/ exists a, issues (f a) req.
Proof.
  induction m as [[e|a] | req0 k IH | k IH | k IH | name k IH]; simpl; intros H.
  - now apply issues_Ret in H.
  - right. now exists a.
  - inversion H; subst.
    + left. constructor.
    + destruct (IH _ H3) as [H'|H']; [left; econstructor 2; eassumption | now right].
  - inversion H; subst. destruct (IH H1) as [H'|H']; [left; now constructor | now right].
  - inversion H; subst. destruct (IH H1) as [H'|H']; [left; now constructor | now right].
  - inversion H; subst.
    match goal with
    | H0 : issues _ _ |- _ =>
        destruct (IH H0) as [H'|H']; [left; now constructor | now right]
    end.
Qed.

Lemma issues_catch {A} (m : io A) (h : pyexc -> io A) req :
  issues (io_catch m h) req -> issues m req \/ exists e, issues (h e) req.
Proof.
  induction m as [[e|a] | req0 k IH | k IH | k IH | name k IH]; simpl; intros H.
  - right. now exists e.
  - now apply issues_Ret in H.
  - inversion H; subst.
    + left. constructor.
    + destruct (IH _ H3) as [H'|H']; [left; econstructor 2; eassumption | now right].
  - inversion H; subst. destruct (IH H1) as [H'|H']; [left; now constructor | now right].
  - inversion H; subst. destruct (IH H1) as [H'|H']; [left; now constructor | now right].
  - inversion H; subst.
    match goal with
    | H0 : issues _ _ |- _ =>
        destruct (IH H0) as [H'|H']; [left; now constructor | now right]
    end.
Qed.

Lemma issues_finally_release {A} (m : io A) req :
  issues (io_finally_release m) req -> issues m req.
Proof.
  induction m as [r | req0 k IH | k IH | k IH | name k IH]; simpl; intros H.
  - inversion H; subst. now apply issues_Ret in H1.
  - inversion H; subst; [constructor | econstructor 2; eauto].
  - inversion H; subst. constructor. auto.
  - inversion H; subst. constructor. auto.
  - inversion H; subst. constructor. auto.
Qed.

Lemma issues_Call {A} name (k : io A) req : issues (Call name k) req -> issues k req.
Proof. intros H. now inversion H. Qed.

Lemma issues_acquire_inv {A} (k : io A) req : issues (Acquire k) req -> issues k req.
Proof. intros H. now inversion H. Qed.

Lemma issues_release_inv {A} (k : io A) req : issues (Release k) req -> issues k req.
Proof. intros H. now inversion H. Qed.

Lemma issues_send r req : issues (send r) req -> req = r.
Proof.
  unfold send. intros H. inversion H; subst; [reflexivity|].
  destruct o; now apply issues_Ret in H3.
Qed.

(** A handler that sends one request and then only computes. *)
Lemma issues_send_then {A} r (f : response -> io A) req :
  (forall resp, ~ issues (f resp) req) ->
  issues (io_bind (send r) f) req -> req = r.
Proof.
  intros Hf H. apply issues_bind in H. destruct H as [H | [resp H]].
  - now apply issues_send.
  - now apply Hf in H.
Qed.

Ltac no_call :=
  repeat match goal with
    | |- ~ _ => let H := fresh in intros H
    | H : issues (if ?c then _ else _) _ |- _ => destruct c
    | H : issues (Ret _) _ |- _ => now apply issues_Ret in H
    | H : issues (lift _) _ |- _ => now apply issues_Ret in H
    | H : issues (Call _ _) _ |- _ => apply issues_Call in H
    | H : issues (io_bind _ _) _ |- _ =>
        apply issues_bind in H; destruct H as [H | [? H]]
    end.

Lemma fetch_mls_data_timeout cfg url req :
  issues (fetch_mls_data cfg url) req -> timeout req = Some REQUEST_TIMEOUT.
Proof.
  unfold fetch_mls_data. destruct (negb (MLS_CONFIGURED cfg)); intros H.
  - now apply issues_Ret in H.
  - apply issues_send_then in H; [now subst|]. intros resp. no_call.
Qed.

Lemma fetch_largest_media_timeout py_repr cfg key req :
  issues (fetch_largest_media py_repr cfg key) req -> timeout req = Some REQUEST_TIMEOUT.
Proof.
  unfold fetch_largest_media. destruct (negb (MLS_CONFIGURED cfg)); intros H.
  - now apply issues_Ret in H.
  - apply issues_catch in H. destruct H as [H | [e H]]; [|now apply issues_Ret in H].
    apply issues_send_then in H; [now subst|]. intros resp. no_call.
Qed.

Lemma get_transformed_property_timeout py_repr cfg v req :
  issues (get_transformed_property py_repr cfg v) req ->
  timeout req = Some REQUEST_TIMEOUT.
Proof.
  unfold get_transformed_property, async_with_semaphore.
  destruct v; try (intros H; now apply issues_Ret in H).
  destruct (negb (truthy _)); intros H; [now apply issues_Ret in H|].
  apply issues_bind in H. destruct H as [H | [urls H]].
  - inversion H; subst. apply issues_Call, issues_finally_release in H1.
    eapply fetch_largest_media_timeout; eauto.
  - no_call.
Qed.

(** C8, as amended: every call to the listing API (the listing fetch and the
    media fetch, also inside a fan-out task) is made with the fixed timeout
    [REQUEST_TIMEOUT] of 30; every row-store call of the cart and of the
    wishlist is made with no timeout argument. *)
Theorem outbound_call_timeouts py_repr mls sb url key v property_id user_id auth req :
  REQUEST_TIMEOUT = FFin 30 0
  /\ (issues (fetch_mls_data mls url) req
      \/ issues (fetch_largest_media py_repr mls key) req
      \/ issues (get_transformed_property py_repr mls v) req ->
      timeout req = Some REQUEST_TIMEOUT)
  /\ (issues (Cart.add_to_cart sb property_id user_id auth) req
      \/ issues (Cart.remove_from_cart sb property_id user_id auth) req
      \/ issues (Cart.list_cart sb user_id auth) req
      \/ issues (Wishlist.add_to_wishlist sb property_id user_id auth) req
      \/ issues (Wishlist.remove_from_wishlist sb property_id user_id auth) req
      \/ issues (Wishlist.list_wishlist sb user_id auth) req ->
      timeout req = None).
Proof.
  split; [reflexivity|]. split.
  - intros [H | [H | H]];
      eauto using fetch_mls_data_timeout, fetch_largest_media_timeout,
        get_transformed_property_timeout.
  - intros H.
    repeat (destruct H as [H | H]);
      (apply issues_send_then in H; [now subst | intros resp; no_call]).
Qed.

Lemma outbound_call_timeouts_witness :
  let url := "https://mls.example/odata/Property?$top=24" in
  let req := Request "GET" url (mls_headers example_mls) None (Some (FFin 30 0)) in
  issues (fetch_mls_data example_mls url) req /\ timeout req = Some REQUEST_TIMEOUT.
Proof.
  intros url req.
  assert (H : issues (fetch_mls_data example_mls url) req).
  { unfold fetch_mls_data. simpl. apply issues_here. }
  split; [exact H|].
  apply (proj1 (proj2 (outbound_call_timeouts (fun _ => "") example_mls example_supabase
                         url PNone PNone "p1" "A" None req))).
  left. exact H.
Defined.

(** C8 as stated fails on the row store: the call [add_to_cart] issues
    carries no timeout. *)
Lemma add_to_cart_call_has_no_timeout :
  exists req,
    issues (Cart.add_to_cart example_supabase "p1" "A" None) req
    /\ timeout req <> Some REQUEST_TIMEOUT.
Proof.
  eexists. split; [unfold Cart.add_to_cart; simpl; apply issues_here|].
  discriminate.
Qed.

(** ** [GET /properties]: failures of the listing fetch *)

Lemma fetch_mls_data_no_response cfg url msg :
  MLS_CONFIGURED cfg = true ->
  io_run (fun _ => NoResponse msg) (fetch_mls_data cfg url) = raise (TransportError msg).
Proof. intros H. unfold fetch_mls_data. now rewrite H. Qed.

Lemma fetch_mls_data_bad_status cfg url r :
  MLS_CONFIGURED cfg = true -> is_success r = false ->
  io_run (fun _ => Responded r) (fetch_mls_data cfg url)
  = raise (HTTPStatusError (status_code r) (text r)).
Proof.
  intros H Hr. unfold fetch_mls_data. rewrite H. simpl.
  unfold raise_for_status. now rewrite Hr.
Qed.

Lemma get_properties_not_configured py_repr str_of_exc cfg limit city min_price max_price
    min_beds max_beds min_baths max_baths pt listing_world media_world sched :
  MLS_CONFIGURED cfg = false ->
  get_properties py_repr str_of_exc cfg limit city min_price max_price min_beds max_beds
    min_baths max_baths pt listing_world media_world sched
  = Some (raise (HTTPException 503 "MLS API not configured.")).
Proof.
  intros H. unfold get_properties, fetch_mls_data. now rewrite H.
Qed.

(** C4, as amended: with the listing API configured, a transport failure or
    a non-success status of the listing fetch surfaces from [GET /properties]
    as status 500 with the detail "Error fetching properties: " followed by
    the exception's message, whatever status and body the upstream sent. *)
Theorem get_properties_upstream_failure py_repr str_of_exc cfg limit city
    min_price max_price min_beds max_beds min_baths max_baths pt media_world sched :
  MLS_CONFIGURED cfg = true ->
  (forall msg,
      get_properties py_repr str_of_exc cfg limit city min_price max_price
        min_beds max_beds min_baths max_baths pt
        (fun _ => NoResponse msg) media_world sched
      = Some (raise (HTTPException 500
                       ("Error fetching properties: "
                        +:+ str_of_exc (TransportError msg)))))
  /\ (forall r, is_success r = false ->
        get_properties py_repr str_of_exc cfg limit city min_price max_price
          min_beds max_beds min_baths max_baths pt
          (fun _ => Responded r) media_world sched
        = Some (raise (HTTPException 500
                         ("Error fetching properties: "
                          +:+ str_of_exc (HTTPStatusError (status_code r) (text r)))))).
Proof.
  intros H. split.
  - intros msg. unfold get_properties.
    now rewrite fetch_mls_data_no_response.
  - intros r Hr. unfold get_properties.
    now rewrite fetch_mls_data_bad_status.
Qed.

Lemma get_properties_upstream_failure_witness :
  MLS_CONFIGURED example_mls = true
  /\ get_properties (fun _ => "") (fun _ => "404 Not Found") example_mls 24
       None None None None None None None None
       (fun _ => Responded (Response 404 "no such resource" None)) (fun _ _ => NoResponse "")
       []
     = Some (raise (HTTPException 500 "Error fetching properties: 404 Not Found")).
Proof.
  split; [reflexivity|].
  apply (proj2 (get_properties_upstream_failure (fun _ => "") (fun _ => "404 Not Found")
                  example_mls 24 None None None None None None None None
                  (fun _ _ => NoResponse "") [] eq_refl)
           (Response 404 "no such resource" None)).
  reflexivity.
Defined.

(** C4 as stated fails: the upstream answers 404 with a body, and the caller
    gets a 500 whose detail is not that body. *)
Lemma get_properties_substitutes_status :
  get_properties (fun _ => "") (fun _ => "404 Not Found") example_mls 24
    None None None None None None None None
    (fun _ => Responded (Response 404 "no such resource" None)) (fun _ _ => NoResponse "")
    []
  = Some (raise (HTTPException 500 "Error fetching properties: 404 Not Found"))
  /\ HTTPException 500 "Error fetching properties: 404 Not Found"
     <> HTTPException 404 "no such resource".
Proof. split; [vm_compute; reflexivity | discriminate]. Qed.

(** ** The event loop: what every schedule preserves *)

Section PoolTheory.
Context {A : Type}.
Variable world : nat -> request -> http_outcome.
Variable limit : nat.
Variable coros : list (io A).

Lemma held_insert (l : list (task A)) i t t' :
  l !! i = Some t ->
  (list_sum (map held (<[i:=t']> l)) + held t = list_sum (map held l) + held t')%nat.
Proof.
  revert i. induction l as [|x l IH]; intros [|i] H; simpl in *; try discriminate.
  - injection H as ->. lia.
  - specialize (IH i H). lia.
Qed.

Lemma init_pool_inv :
  Forall (disciplined 0) coros -> pool_inv world limit coros (init_pool limit coros).
Proof.
  intros Hd. constructor; simpl.
  - unfold permits_held. simpl. rewrite map_map. simpl.
    assert (H0 : forall l : list (io A), list_sum (map (fun _ => O) l) = O).
    { induction l; simpl; auto. }
    rewrite H0. lia.
  - now rewrite length_map.
  - intros i t H. rewrite list_lookup_fmap in H.
    destruct (coros !! i) as [c|] eqn:Hc; simpl in H; [|discriminate].
    injection H as <-. simpl. repeat split.
    + rewrite Forall_lookup in Hd. eauto.
    + discriminate.
    + eauto.
  - discriminate.
  - intros _ i t e H. rewrite list_lookup_fmap in H.
    destruct (coros !! i); simpl in H; [|discriminate].
    injection H as <-. discriminate.
Qed.

Lemma lookup_insert_cases (l : list (task A)) i j t t' :
  (<[i:=t']> l) !! j = Some t ->
  (j = i /\ t = t') \/ (j <> i /\ l !! j = Some t).
Proof.
  intros H. destruct (decide (i = j)) as [->|Hne].
  - left. split; [reflexivity|].
    destruct (decide (j < length l)%nat) as [Hlt|Hge].
    + rewrite list_lookup_insert_eq in H by assumption. congruence.
    + rewrite list_insert_ge in H by lia.
      apply lookup_lt_Some in H. lia.
  - right. rewrite list_lookup_insert_ne in H by assumption. auto.
Qed.

Lemma lookup_insert_here (l : list (task A)) i t t' :
  l !! i = Some t -> (<[i:=t']> l) !! i = Some t'.
Proof. intros H. apply list_lookup_insert_eq. eapply lookup_lt_Some; eauto. Qed.

Lemma step_pool_inv p i p' :
  pool_inv world limit coros p -> step world i p = Some p' ->
  pool_inv world limit coros p'.
Proof.
  intros [Hperm Hlen Htask Hexc Hnoexc] Hstep.
  unfold step in Hstep.
  destruct (tasks p !! i) as [[c h f]|] eqn:Hi; [|discriminate].
  destruct f; [discriminate|].
  destruct (Htask i _ Hi) as (Hd & Hf & c0 & Hc0 & Hrun). simpl in *.
  unfold permits_held in Hperm.
  destruct c as [r | req k | k | k | name k].
  - (* the loop collects a task that has ended *)
    injection Hstep as <-. constructor; simpl.
    + unfold permits_held. simpl.
      pose proof (held_insert _ _ _ (Task (Ret r) h true) Hi) as Hs. simpl in Hs. lia.
    + now rewrite length_insert.
    + intros j t Hj. apply lookup_insert_cases in Hj.
      destruct Hj as [[-> ->] | [Hne Hj]]; [|now apply Htask].
      simpl. repeat split; eauto.
    + intros e He.
      destruct (first_exc p) as [e0|] eqn:Hfe.
      * injection He as <-. destruct (Hexc e0 eq_refl) as (i0 & t0 & Hi0 & Hc).
        destruct (decide (i0 = i)) as [->|Hne].
        -- exists i, (Task (Ret r) h true). split; [eapply lookup_insert_here; eauto|].
           rewrite Hi in Hi0. injection Hi0 as <-. exact Hc.
        -- exists i0, t0. split; [|exact Hc].
           rewrite list_lookup_insert_ne by auto. exact Hi0.
      * destruct r as [e'|a]; [|discriminate]. injection He as <-.
        exists i, (Task (Ret (inl e')) h true).
        split; [eapply lookup_insert_here; eauto | reflexivity].
    + intros Hnone j t e Hj Hfin.
      destruct (first_exc p) as [e0|] eqn:Hfe; [discriminate|].
      apply lookup_insert_cases in Hj.
      destruct Hj as [[-> ->] | [Hne Hj]]; [|now eapply Hnoexc; eauto].
      simpl. destruct r; [discriminate | congruence].
  - (* the awaited call is answered *)
    injection Hstep as <-. destruct Hd as [-> Hk]. constructor; simpl.
    + unfold permits_held. simpl.
      pose proof (held_insert _ _ _ (Task (k (world i req)) 1 false) Hi) as Hs.
      simpl in Hs. lia.
    + now rewrite length_insert.
    + intros j t Hj. apply lookup_insert_cases in Hj.
      destruct Hj as [[-> ->] | [Hne Hj]]; [|now apply Htask].
      simpl. repeat split; eauto. discriminate.
    + intros e He. destruct (Hexc e He) as (i0 & t0 & Hi0 & Hc).
      exists i0, t0. split; [|exact Hc].
      rewrite list_lookup_insert_ne; [exact Hi0|].
      intros <-. rewrite Hi in Hi0. injection Hi0 as <-. discriminate.
    + intros Hnone j t e Hj Hfin. apply lookup_insert_cases in Hj.
      destruct Hj as [[-> ->] | [Hne Hj]]; [discriminate | now eapply Hnoexc; eauto].
  - (* a permit is taken *)
    destruct (permits p) as [|n] eqn:Hn; [discriminate|].
    injection Hstep as <-. destruct Hd as [-> Hk]. constructor; simpl.
    + unfold permits_held. simpl.
      pose proof (held_insert _ _ _ (Task k 1 false) Hi) as Hs. simpl in Hs. lia.
    + now rewrite length_insert.
    + intros j t Hj. apply lookup_insert_cases in Hj.
      destruct Hj as [[-> ->] | [Hne Hj]]; [|now apply Htask].
      simpl. repeat split; eauto. discriminate.
    + intros e He. destruct (Hexc e He) as (i0 & t0 & Hi0 & Hc).
      exists i0, t0. split; [|exact Hc].
      rewrite list_lookup_insert_ne; [exact Hi0|].
      intros <-. rewrite Hi in Hi0. injection Hi0 as <-. discriminate.
    + intros Hnone j t e Hj Hfin. apply lookup_insert_cases in Hj.
      destruct Hj as [[-> ->] | [Hne Hj]]; [discriminate | now eapply Hnoexc; eauto].
  - (* the permit is given back *)
    injection Hstep as <-. destruct Hd as [-> Hk]. constructor; simpl.
    + unfold permits_held. simpl.
      pose proof (held_insert _ _ _ (Task k 0 false) Hi) as Hs. simpl in Hs. lia.
    + now rewrite length_insert.
    + intros j t Hj. apply lookup_insert_cases in Hj.
      destruct Hj as [[-> ->] | [Hne Hj]]; [|now apply Htask].
      simpl. repeat split; eauto. discriminate.
    + intros e He. destruct (Hexc e He) as (i0 & t0 & Hi0 & Hc).
      exists i0, t0. split; [|exact Hc].
      rewrite list_lookup_insert_ne; [exact Hi0|].
      intros <-. rewrite Hi in Hi0. injection Hi0 as <-. discriminate.
    + intros Hnone j t e Hj Hfin. apply lookup_insert_cases in Hj.
      destruct Hj as [[-> ->] | [Hne Hj]]; [discriminate | now eapply Hnoexc; eauto].
  - (* a call of the module is entered *)
    injection Hstep as <-. destruct Hd as (_ & _ & Hk). constructor; simpl.
    + unfold permits_held. simpl.
      pose proof (held_insert _ _ _ (Task k h false) Hi) as Hs. simpl in Hs. lia.
    + now rewrite length_insert.
    + intros j t Hj. apply lookup_insert_cases in Hj.
      destruct Hj as [[-> ->] | [Hne Hj]]; [|now apply Htask].
      simpl. repeat split; eauto. discriminate.
    + intros e He. destruct (Hexc e He) as (i0 & t0 & Hi0 & Hc).
      exists i0, t0. split; [|exact Hc].
      rewrite list_lookup_insert_ne; [exact Hi0|].
      intros <-. rewrite Hi in Hi0. injection Hi0 as <-. discriminate.
    + intros Hnone j t e Hj Hfin. apply lookup_insert_cases in Hj.
      destruct Hj as [[-> ->] | [Hne Hj]]; [discriminate | now eapply Hnoexc; eauto].
Qed.

Lemma run_pool_inv sched p :
  pool_inv world limit coros p -> pool_inv world limit coros (run world sched p).
Proof.
  revert p. induction sched as [|i sched IH]; intros p Hp; simpl; [exact Hp|].
  apply IH. destruct (step world i p) eqn:Hs; [eapply step_pool_inv; eauto | exact Hp].
Qed.

(** The events a task has made so far, followed by those it still has to
    make, are the events of its coroutine run on its own. *)
Lemma events_of_app i (l1 l2 : list (nat * event)) :
  events_of i (l1 ++ l2) = events_of i l1 ++ events_of i l2.
Proof. unfold events_of. now rewrite List.filter_app, map_app. Qed.

Lemma step_trace (p : pool A) j p' i (t : task A) :
  step world j p = Some p' -> tasks p !! i = Some t ->
  exists t',
    tasks p' !! i = Some t'
    /\ events_of i
         match tasks p !! j with
         | Some tj =>
             match step_event (A:=A) (code tj) with
             | Some ev => [(j, ev)]
             | None => []
             end
         | None => []
         end
       ++ trace (world i) (code t') = trace (world i) (code t).
Proof.
  intros Hstep Hi. unfold step in Hstep.
  destruct (tasks p !! j) as [[c h f]|] eqn:Hj; [|discriminate].
  destruct f; [discriminate|]. simpl.
  destruct (decide (j = i)) as [->|Hne].
  - rewrite Hi in Hj. injection Hj as ->. simpl.
    destruct c as [r | req k | k | k | name k]; simpl;
      try (destruct (permits p); [discriminate|]);
      injection Hstep as <-; simpl;
      (eexists; split; [eapply lookup_insert_here; eauto|]);
      unfold events_of; simpl; rewrite ?Nat.eqb_refl; reflexivity.
  - assert (Hev : forall ev, events_of i [(j, ev)] = []).
    { intros ev. unfold events_of. simpl.
      destruct (Nat.eqb_spec j i); [contradiction | reflexivity]. }
    assert (Hnil : events_of i
                     match step_event c with Some ev => [(j, ev)] | None => [] end = []).
    { destruct (step_event c); [apply Hev | reflexivity]. }
    rewrite Hnil. exists t. split; [|reflexivity].
    destruct c as [r | req k | k | k | name k];
      try (destruct (permits p); [discriminate|]);
      injection Hstep as <-; simpl;
      rewrite list_lookup_insert_ne by assumption; exact Hi.
Qed.

Lemma log_trace sched : forall (p : pool A) i (t : task A),
  tasks p !! i = Some t ->
  exists t',
    tasks (run world sched p) !! i = Some t'
    /\ events_of i (log world sched p) ++ trace (world i) (code t')
       = trace (world i) (code t).
Proof.
  induction sched as [|j sched IH]; intros p i t Hi; simpl.
  - exists t. auto.
  - destruct (step world j p) as [p'|] eqn:Hstep; [|now apply IH].
    destruct (step_trace p j p' i t Hstep Hi) as (t1 & Hi1 & Ht1).
    destruct (IH p' i t1 Hi1) as (t' & Hi' & Ht').
    exists t'. split; [exact Hi'|].
    rewrite events_of_app, <- app_assoc, Ht'. exact Ht1.
Qed.

(** Each awaited call is covered by a permit. *)
Lemma awaiting_le_held (l : list (task A)) :
  Forall (fun t => disciplined (held t) (code t)) l ->
  (length (List.filter awaiting l) <= list_sum (map held l))%nat.
Proof.
  induction 1 as [|t l Ht _ IH]; simpl; [lia|].
  unfold awaiting at 1. destruct (code t); simpl in *; lia.
Qed.

Lemma pool_inv_disciplined p :
  pool_inv world limit coros p ->
  Forall (fun t => disciplined (held t) (code t)) (tasks p).
Proof.
  intros Hp. apply Forall_lookup. intros i t Hi.
  now destruct (inv_task _ _ _ _ Hp i t Hi).
Qed.

Lemma pool_inv_in_flight p :
  pool_inv world limit coros p -> (in_flight p <= limit)%nat.
Proof.
  intros Hp. pose proof (inv_permits _ _ _ _ Hp) as H1.
  pose proof (awaiting_le_held _ (pool_inv_disciplined p Hp)) as H2.
  unfold in_flight, permits_held in *. lia.
Qed.

(** What [gather] returns is, task by task, what each coroutine gives when
    run with its own answers. *)
Lemma task_value_Some (t : task A) v :
  task_value t = Some v -> code t = Ret (inr v) /\ finished t = true.
Proof.
  destruct t as [[[e|a]| | | |] h [|]]; simpl; try discriminate.
  intros [= ->]. auto.
Qed.

Lemma gather_values p vs :
  pool_inv world limit coros p ->
  gather_result p = Some (inr vs) ->
  map inr vs = imap (fun i c => io_run (world i) c) coros.
Proof.
  intros Hp Hg. unfold gather_result in Hg.
  destruct (first_exc p); [discriminate|].
  destruct (mapM task_value (tasks p)) as [vs'|] eqn:Hm; [|discriminate].
  injection Hg as ->. apply mapM_Some in Hm.
  pose proof (Forall2_length _ _ _ Hm) as Hl.
  pose proof (inv_length _ _ _ _ Hp) as Hl'.
  apply list_eq. intros i. rewrite list_lookup_fmap, list_lookup_imap.
  destruct (vs !! i) as [v|] eqn:Hv; simpl.
  - destruct (Forall2_lookup_r _ _ _ _ _ Hm Hv) as (t & Ht & Htv).
    apply task_value_Some in Htv. destruct Htv as [Hc _].
    destruct (inv_task _ _ _ _ Hp i t Ht) as (_ & _ & c & Hci & Hrun).
    rewrite Hci. simpl. rewrite <- Hrun, Hc. reflexivity.
  - apply lookup_ge_None in Hv.
    assert (Hn : coros !! i = None) by (apply lookup_ge_None; lia).
    now rewrite Hn.
Qed.

Lemma gather_raises p e :
  pool_inv world limit coros p ->
  gather_result p = Some (inl e) ->
  exists i c, coros !! i = Some c /\ io_run (world i) c = inl e.
Proof.
  intros Hp Hg. unfold gather_result in Hg.
  destruct (first_exc p) as [e'|] eqn:He.
  - injection Hg as ->. destruct (inv_exc _ _ _ _ Hp e He) as (i & t & Hi & Hc).
    destruct (inv_task _ _ _ _ Hp i t Hi) as (_ & _ & c & Hci & Hrun).
    exists i, c. split; [exact Hci|]. rewrite <- Hrun, Hc. reflexivity.
  - destruct (mapM task_value (tasks p)); discriminate.
Qed.

(** *** Every run can be completed *)



Lemma held_positive (l : list (task A)) :
  (1 <= list_sum (map held l))%nat ->
  exists i t, l !! i = Some t /\ (1 <= held t)%nat.
Proof.
  induction l as [|x l IH]; simpl; [lia|]. intros H.
  destruct (decide (1 <= held x)%nat) as [Hx|Hx].
  - exists O, x. auto.
  - destruct IH as (i & t & Hi & Ht); [lia|]. exists (S i), t. auto.
Qed.

(** No deadlock: while a task is not collected, some task can step. *)
Lemma pool_progress p :
  pool_inv world limit coros p -> (1 <= limit)%nat -> ~ all_finished p ->
  exists i p', step world i p = Some p'.
Proof.
  intros Hp Hlim Hnf. unfold all_finished in Hnf.
  apply not_Forall_Exists in Hnf; [|intros t; apply _].
  apply Exists_exists in Hnf. destruct Hnf as (t & Hin & Hf).
  apply list_elem_of_lookup in Hin. destruct Hin as [j Hj].
  destruct t as [c h f]. simpl in Hf. destruct f; [congruence|]. clear Hf.
  assert (Hgo : forall i c' h', tasks p !! i = Some (Task c' h' false) ->
                  (forall k, c' <> Acquire k) -> exists p', step world i p = Some p').
  { intros i c' h' Hi Hna. unfold step. rewrite Hi.
    destruct c'; eauto. now destruct (Hna c'). }
  destruct c as [r | req k | k | k | name k];
    try (exists j; eapply Hgo; [exact Hj | discriminate]).
  destruct (permits p) as [|n] eqn:Hn.
  - pose proof (inv_permits _ _ _ _ Hp) as Hperm. rewrite Hn in Hperm.
    unfold permits_held in Hperm.
    destruct (held_positive (tasks p)) as (i & t & Hi & Ht); [lia|].
    destruct (inv_task _ _ _ _ Hp i t Hi) as (Hd & Hfin & _).
    destruct t as [c' h' f']. simpl in *. exists i.
    destruct f'.
    + destruct (Hfin eq_refl) as [r ->]. simpl in Hd. lia.
    + eapply Hgo; [exact Hi|]. intros k' ->. simpl in Hd. lia.
  - exists j. unfold step. rewrite Hj, Hn. eauto.
Qed.





End PoolTheory.

(** ** The fan-out task *)

Lemma io_run_finally_release {A} world (m : io A) :
  io_run world (io_finally_release m) = io_run world m.
Proof. induction m; simpl; auto. Qed.

Lemma io_run_catch {A} world (m : io A) h :
  io_run world (io_catch m h)
  = match io_run world m with
    | inl e => io_run world (h e)
    | inr a => inr a
    end.
Proof. induction m as [[e|a] | | | |]; simpl; auto. Qed.

Section FanOut.
Variable py_repr : pyval -> string.
Variable cfg : mls_config.

Lemma fetch_largest_media_returns w key :
  io_run w (fetch_largest_media py_repr cfg key) = ret (fetched_media py_repr cfg key w).
Proof.
  unfold fetched_media, fetch_largest_media.
  destruct (negb (MLS_CONFIGURED cfg)); [reflexivity|].
  rewrite io_run_catch. now destruct (io_run w _).
Qed.


Lemma fetch_largest_media_shape key :
  fetch_largest_media py_repr cfg key = Ret (ret [])
  \/ exists req k, fetch_largest_media py_repr cfg key = Await req k
                   /\ forall o, exists urls, k o = Ret (ret urls).
Proof.
  unfold fetch_largest_media. destruct (negb (MLS_CONFIGURED cfg)); [now left|].
  right. simpl. do 2 eexists. split; [reflexivity|].
  intros [msg|r]; simpl; [eauto|].
  destruct (raise_for_status r); simpl; [eauto|].
  destruct (response_json r); simpl; [eauto|].
  destruct (py_get _ _ _); simpl; [eauto|].
  destruct (py_iter _); simpl; [eauto|].
  destruct (media_urls_of _); simpl; eauto.
Qed.

Lemma get_transformed_property_shape v :
  let c := get_transformed_property py_repr cfg v in
  (exists r, c = Ret r)
  \/ (exists r,
        c = Acquire (Call "fetch_largest_media"
              (Release (Call "transform_property" (Ret r)))))
  \/ (exists req k,
        c = Acquire (Call "fetch_largest_media" (Await req k))
        /\ forall o, exists r, k o = Release (Call "transform_property" (Ret r))).
Proof.
  unfold get_transformed_property.
  destruct v as [| | | | | | d]; try (left; eauto; fail).
  destruct (negb (truthy _)); [left; eauto|]. right.
  assert (HK : forall urls, exists r,
             (do* view := lift (transform_property d (Some urls)) in Ret (ret (Some view)))
             = Ret r).
  { intros urls. simpl. destruct (transform_property _ _); eauto. }
  unfold async_with_semaphore.
  destruct (fetch_largest_media_shape (dict_get d "ListingKey" PNone))
    as [-> | (req & k & -> & Hk)].
  - left. simpl. destruct (HK []) as [r Hr]. simpl in Hr. rewrite Hr. eauto.
  - right. simpl. do 2 eexists. split; [reflexivity|].
    intros o. destruct (Hk o) as [urls ->]. simpl.
    destruct (HK urls) as [r Hr]. simpl in Hr. rewrite Hr. eauto.
Qed.

Lemma fetch_largest_media_trace w key :
  exists urls,
    forall (B : Type) (f : list pyval -> io B),
      trace w (io_bind (io_finally_release (fetch_largest_media py_repr cfg key)) f)
      = (if MLS_CONFIGURED cfg then [EvAwait (media_request py_repr cfg key)] else [])
        ++ EvRelease :: trace w (f urls).
Proof.
  unfold fetch_largest_media. destruct (MLS_CONFIGURED cfg); simpl.
  - fold (media_request py_repr cfg key).
    destruct (w (media_request py_repr cfg key)) as [msg|r]; simpl; [eauto|].
    destruct (raise_for_status r); simpl; [eauto|].
    destruct (response_json r); simpl; [eauto|].
    destruct (py_get _ _ _); simpl; [eauto|].
    destruct (py_iter _); simpl; [eauto|].
    destruct (media_urls_of _); simpl; eauto.
  - eauto.
Qed.

Lemma get_transformed_property_trace w d :
  trace w (get_transformed_property py_repr cfg (PDict d)) = unit_events py_repr cfg d.
Proof.
  unfold get_transformed_property, unit_events, has_listing_key, listing_key,
    async_with_semaphore.
  destruct (truthy (dict_get d "ListingKey" PNone)); simpl; [|reflexivity].
  destruct (fetch_largest_media_trace w (dict_get d "ListingKey" PNone)) as [urls Hu].
  rewrite Hu. simpl. destruct (transform_property _ _); simpl; reflexivity.
Qed.

Lemma get_transformed_property_disciplined v :
  disciplined 0 (get_transformed_property py_repr cfg v).
Proof.
  destruct (get_transformed_property_shape v)
    as [[r ->] | [[r ->] | (req & k & -> & Hk)]]; simpl; auto.
  - repeat split; auto; discriminate.
  - repeat split; auto; try discriminate.
    intros o. destruct (Hk o) as [r ->]. simpl. repeat split; auto; discriminate.
Qed.

Lemma get_transformed_property_depth v :
  depth_le 5 (get_transformed_property py_repr cfg v).
Proof.
  destruct (get_transformed_property_shape v)
    as [[r ->] | [[r ->] | (req & k & -> & Hk)]]; simpl; auto.
  intros o. destruct (Hk o) as [r ->]. simpl. auto.
Qed.

Lemma get_transformed_property_run w i d :
  io_run (w i) (get_transformed_property py_repr cfg (PDict d))
  = task_outcome py_repr cfg w (i, d).
Proof.
  unfold get_transformed_property, task_outcome, has_listing_key, listing_key. simpl.
  destruct (truthy (dict_get d "ListingKey" PNone)); simpl; [|reflexivity].
  rewrite io_run_bind. unfold async_with_semaphore. simpl.
  rewrite io_run_finally_release, fetch_largest_media_returns.
  unfold ret. now destruct (transform_property _ _).
Qed.

Lemma transform_property_images d imgs v :
  transform_property d imgs = ret v ->
  images v = match imgs with Some l => l | None => [] end.
Proof.
  unfold transform_property. destruct (address_str d) as [e|a]; simpl; [discriminate|].
  destruct (py_int _) as [e|b1]; simpl; [discriminate|].
  destruct (py_int _) as [e|b2]; simpl; [discriminate|].
  destruct (py_int _) as [e|b3]; simpl; [discriminate|].
  intros [= <-]. reflexivity.
Qed.

Variable world : nat -> request -> http_outcome.

Lemma task_runs_indexed (ds : list (gmap string pyval)) :
  imap (fun i c => io_run (world i) c)
    (map (get_transformed_property py_repr cfg) (map PDict ds))
  = map (task_outcome py_repr cfg world) (imap pair ds).
Proof.
  apply list_eq. intros i.
  rewrite list_lookup_imap, !list_lookup_fmap, list_lookup_imap.
  destruct (ds !! i) as [d|]; simpl; [|reflexivity].
  f_equal. apply get_transformed_property_run.
Qed.






End FanOut.


(** C9: during the fan-out of any batch, under any schedule and any answers
    of the media endpoint, at most 4 media fetches are in flight; the pool
    has exactly 4 permits, each either free or held by one task.  Each unit
    of work acquires one permit before it calls the media fetch and releases
    it before it calls the transformer: a task at the call of the media
    fetch, or awaiting its request, holds one permit; a task at the call of
    the transformer, or past it, holds none; and the events of the unit of
    a listing with a key are, in this order, acquire, call of the media
    fetch, the awaited media request (when the listing API is configured),
    release, call of the transformer: on every run of the coroutine on its
    own, and as far as the schedule has let the task go in the fan-out, in
    full once the task is collected.  A listing without key takes no permit
    and fetches nothing. *)
Theorem fan_out_concurrency_cap py_repr cfg (batch : list pyval)
    (world : nat -> request -> http_outcome) (sched : list nat) :
  let p := run world sched
             (init_pool CONCURRENCY_LIMIT
                (map (get_transformed_property py_repr cfg) batch)) in
  let l := log world sched
             (init_pool CONCURRENCY_LIMIT
                (map (get_transformed_property py_repr cfg) batch)) in
  CONCURRENCY_LIMIT = 4%nat
  /\ (in_flight p <= 4)%nat
  /\ (permits p + permits_held p = 4)%nat
  /\ Forall (fun t => (calling "fetch_largest_media" t = true -> held t = 1%nat)
                      /\ (awaiting t = true -> held t = 1%nat)
                      /\ (calling "transform_property" t = true -> held t = 0%nat)
                      /\ (forall r, code t = Ret r -> held t = 0%nat)) (tasks p)
  /\ (forall i d, batch !! i = Some (PDict d) ->
        (forall w, trace w (get_transformed_property py_repr cfg (PDict d))
                   = unit_events py_repr cfg d)
        /\ events_of i l `prefix_of` unit_events py_repr cfg d
        /\ (forall t, tasks p !! i = Some t -> finished t = true ->
                      events_of i l = unit_events py_repr cfg d)).
Proof.
  intros p l.
  assert (Hp : pool_inv world CONCURRENCY_LIMIT
                 (map (get_transformed_property py_repr cfg) batch) p).
  { apply run_pool_inv, init_pool_inv, List.Forall_forall.
    intros c Hc. apply in_map_iff in Hc.
    destruct Hc as (v & <- & _). apply get_transformed_property_disciplined. }
  split; [reflexivity|]. split; [|split; [|split]].
  - apply (pool_inv_in_flight _ _ _ _ Hp).
  - apply (inv_permits _ _ _ _ Hp).
  - eapply Forall_impl; [apply (pool_inv_disciplined _ _ _ _ Hp)|].
    intros [c h f]. unfold awaiting, calling. simpl. intros Hd. repeat split.
    + destruct c; simpl in Hd; try discriminate.
      intros Hn. apply String.eqb_eq in Hn. tauto.
    + destruct c; simpl in Hd; try discriminate. intros _. tauto.
    + destruct c; simpl in Hd; try discriminate.
      intros Hn. apply String.eqb_eq in Hn. tauto.
    + intros r ->. exact Hd.
  - intros i d Hi.
    split; [intros w; apply get_transformed_property_trace|].
    assert (H0 : tasks (init_pool CONCURRENCY_LIMIT
                          (map (get_transformed_property py_repr cfg) batch)) !! i
                 = Some (Task (get_transformed_property py_repr cfg (PDict d)) 0 false)).
    { simpl. rewrite !list_lookup_fmap, Hi. reflexivity. }
    destruct (log_trace world sched _ i _ H0) as (t' & Ht' & Heq).
    cbn [code] in Heq. rewrite get_transformed_property_trace in Heq.
    split; [exists (trace (world i) (code t')); symmetry; exact Heq|].
    intros t Ht Hfin. fold p in Ht'. rewrite Ht in Ht'. injection Ht' as <-.
    destruct (inv_task _ _ _ _ Hp i t Ht) as (_ & Hr & _).
    destruct (Hr Hfin) as [r Hc]. rewrite Hc in Heq. simpl in Heq.
    rewrite app_nil_r in Heq. exact Heq.
Qed.

Lemma fan_out_concurrency_cap_witness :
  events_of 0
    (log example_media_world [0; 2; 0; 2; 1; 0; 2; 0; 2; 0; 2; 0; 2]%nat
       (init_pool CONCURRENCY_LIMIT
          (map (get_transformed_property (fun _ => "") example_mls)
             (map PDict example_batch))))
  = unit_events (fun _ => "") example_mls
      {[ "ListingKey" := PStr "K1"; "BedroomsTotal" := PInt 2 ]}.
Proof.
  destruct (fan_out_concurrency_cap (fun _ => "") example_mls (map PDict example_batch)
              example_media_world [0; 2; 0; 2; 1; 0; 2; 0; 2; 0; 2; 0; 2]%nat)
    as (_ & _ & _ & _ & H).
  destruct (H O {[ "ListingKey" := PStr "K1"; "BedroomsTotal" := PInt 2 ]} eq_refl)
    as (_ & _ & Hfin).
  eapply Hfin; reflexivity.
Defined.

Lemma fan_out_tasks_disciplined py_repr cfg (batch : list pyval) :
  Forall (disciplined 0) (map (get_transformed_property py_repr cfg) batch)
  /\ Forall (depth_le 5) (map (get_transformed_property py_repr cfg) batch).
Proof.
  split; apply List.Forall_forall; intros c Hc; apply in_map_iff in Hc;
    destruct Hc as (v & <- & _);
    [apply get_transformed_property_disciplined | apply get_transformed_property_depth].
Qed.




(** C10: with every other criterion fixed, an empty-string city gives the
    same filter string as an absent city: it adds no containment clause. *)
Theorem build_filter_str_empty_city_is_absent :
  forall py_repr min_price max_price min_beds max_beds min_baths max_baths property_type,
    build_filter_str py_repr (Some "") min_price max_price min_beds max_beds
      min_baths max_baths property_type
    = build_filter_str py_repr None min_price max_price min_beds max_beds
        min_baths max_baths property_type.
Proof. reflexivity. Qed.

(** * Further properties *)

(** ** The filter builder and the routes *)

Lemma prefix_app s t : String.prefix s (s +:+ t) = true.
Proof.
  induction s as [|a s IH]; simpl; [now destruct t|].
  destruct (ascii_dec a a); [exact IH | contradiction].
Qed.

Lemma join_base_predicates l :
  join " and " (base_predicates ++ l)
  = base_filter_str +:+ match l with
                        | [] => ""
                        | _ :: _ => " and " +:+ join " and " l
                        end.
Proof. destruct l; reflexivity. Qed.

(** X1: whatever the criteria, the filter string starts with the three base
    predicates, so it is never empty and the URL of [GET /properties] always
    carries the [$filter] parameter. *)
Theorem build_filter_str_never_empty py_repr city min_price max_price
    min_beds max_beds min_baths max_baths pt :
  let filter_str := build_filter_str py_repr city min_price max_price
                      min_beds max_beds min_baths max_baths pt in
  String.prefix base_filter_str filter_str = true
  /\ filter_str <> ""
  /\ forall cfg limit,
       get_properties_url py_repr cfg limit filter_str
       = (str_of_opt (MLS_API_URL cfg) +:+ "/Property?$top=" +:+ str_of_int limit)
         +:+ "&$filter=" +:+ filter_str.
Proof.
  intros filter_str.
  assert (H : exists rest, filter_str = base_filter_str +:+ rest).
  { unfold filter_str, build_filter_str. rewrite build_filters_segments, join_base_predicates.
    eauto. }
  destruct H as [rest ->]. split; [apply prefix_app|]. split; [discriminate|].
  intros cfg limit. reflexivity.
Qed.

(** X2: the filter has three clauses plus one per supplied bound and one for a
    non-empty city; the property type never changes it. *)
Theorem build_filters_count py_repr city min_price max_price
    min_beds max_beds min_baths max_baths pt :
  length (build_filters py_repr city min_price max_price min_beds max_beds
            min_baths max_baths pt)
  = (3 + (if opt_truthy city then 1 else 0)
     + supplied min_price + supplied max_price + supplied min_beds
     + supplied max_beds + supplied min_baths + supplied max_baths)%nat
  /\ forall pt',
       build_filter_str py_repr city min_price max_price min_beds max_beds
         min_baths max_baths pt
       = build_filter_str py_repr city min_price max_price min_beds max_beds
           min_baths max_baths pt'.
Proof.
  split; [|reflexivity].
  rewrite build_filters_segments. unfold optional_clauses, city_clause, opt_truthy.
  destruct city as [c|]; [destruct (String.eqb c "")|];
    destruct min_price, max_price, min_beds, max_beds, min_baths, max_baths;
    reflexivity.
Qed.

(** X3: the filter string [enhanced_search_properties] builds inline is the one
    [build_filter_str] gives for the same criteria. *)
Theorem enhanced_search_filter_agrees py_repr city min_price max_price
    min_beds max_beds min_baths max_baths pt :
  enhanced_search_filter_string py_repr city min_price max_price
    min_beds max_beds min_baths max_baths
  = build_filter_str py_repr city min_price max_price min_beds max_beds
      min_baths max_baths pt.
Proof. reflexivity. Qed.

(** X4: a GET of any single non-empty segment is handled by
    [get_property_by_id], which is declared before the routes
    [/selected-fields] and [/enhanced-search]; hence no request is ever
    dispatched to those two handlers. *)
Theorem single_segment_goes_to_get_property_by_id :
  (forall x, x <> "" ->
      Router.dispatch "GET" [x] = Some Router.get_property_by_id_route)
  /\ (forall method path,
        Router.dispatch method path <> Some Router.get_properties_selected_fields_route
        /\ Router.dispatch method path <> Some Router.enhanced_search_properties_route).
Proof.
  split.
  - intros x Hx. unfold Router.dispatch, Router.routes, Router.route_matches.
    cbn -[String.eqb]. replace (String.eqb "GET" "GET") with true by reflexivity.
    destruct (String.eqb_spec x ""); [contradiction | reflexivity].
  - intros method path. unfold Router.dispatch, Router.routes, Router.route_matches.
    cbn -[String.eqb].
    destruct (String.eqb "GET" method); cbn -[String.eqb];
      [|split; intros H; discriminate H].
    destruct path as [|x [|y [|z path]]]; cbn -[String.eqb];
      try (split; intros H; discriminate H).
    + destruct (String.eqb_spec x ""); cbn -[String.eqb].
      * subst. split; intros H; discriminate H.
      * split; intros H; discriminate H.
    + repeat match goal with
             | |- context [String.eqb ?a ?b] =>
                 destruct (String.eqb a b); cbn -[String.eqb]
             end; split; intros H; discriminate H.
    + repeat match goal with
             | |- context [String.eqb ?a ?b] =>
                 destruct (String.eqb a b); cbn -[String.eqb]
             end; split; intros H; discriminate H.
Qed.

Lemma single_segment_goes_to_get_property_by_id_witness :
  Router.dispatch "GET" ["enhanced-search"] = Some Router.get_property_by_id_route.
Proof.
  apply (proj1 single_segment_goes_to_get_property_by_id). discriminate.
Defined.

(** ** The listing client *)

Lemma fetch_mls_data_configured cfg url o :
  MLS_CONFIGURED cfg = true ->
  io_run (fun _ => o) (fetch_mls_data cfg url)
  = match o with
    | NoResponse msg => raise (TransportError msg)
    | Responded r =>
        let* _ := raise_for_status r in
        let* body := response_json r in
        py_get body "value" (PList [])
    end.
Proof.
  intros H. unfold fetch_mls_data. rewrite H. simpl.
  destruct o as [msg|r]; simpl; [reflexivity|].
  destruct (raise_for_status r); simpl; [reflexivity|].
  destruct (response_json r); simpl; [reflexivity|].
  now destruct (py_get _ _ _).
Qed.

Lemma fetch_mls_data_raises cfg url w e :
  io_run w (fetch_mls_data cfg url) = inl e ->
  (MLS_CONFIGURED cfg = false /\ e = HTTPException 503 "MLS API not configured.")
  \/ (MLS_CONFIGURED cfg = true /\ is_HTTPException e = false).
Proof.
  unfold fetch_mls_data. destruct (MLS_CONFIGURED cfg); simpl.
  - intros H. right. split; [reflexivity|]. revert H.
    destruct (w _) as [msg|r]; simpl; [now intros [= <-]|].
    unfold raise_for_status. destruct (is_success r); simpl; [|now intros [= <-]].
    unfold response_json. destruct (json r) as [v|]; simpl; [|now intros [= <-]].
    destruct v; simpl; intros [= <-]; reflexivity.
  - intros [= <-]. now left.
Qed.

(** X5: with the listing API not configured, no HTTP call is made by the
    listing fetch, the media fetch, a fan-out task or [get_property_by_id]:
    the listing fetch raises 503 and the media fetch returns no image. *)
Theorem not_configured_makes_no_call py_repr str_of_exc cfg :
  MLS_CONFIGURED cfg = false ->
  (forall url req, ~ issues (fetch_mls_data cfg url) req)
  /\ (forall key req, ~ issues (fetch_largest_media py_repr cfg key) req)
  /\ (forall v req, ~ issues (get_transformed_property py_repr cfg v) req)
  /\ (forall property_id req,
        ~ issues (get_property_by_id py_repr str_of_exc cfg property_id) req)
  /\ (forall w url,
        io_run w (fetch_mls_data cfg url)
        = raise (HTTPException 503 "MLS API not configured."))
  /\ (forall w key, io_run w (fetch_largest_media py_repr cfg key) = ret []).
Proof.
  intros H.
  assert (Hm : forall url, fetch_mls_data cfg url
                           = Ret (raise (HTTPException 503 "MLS API not configured."))).
  { intros url. unfold fetch_mls_data. now rewrite H. }
  assert (Hl : forall key, fetch_largest_media py_repr cfg key = Ret (ret [])).
  { intros key. unfold fetch_largest_media. now rewrite H. }
  repeat split.
  - intros url req. rewrite Hm. apply issues_Ret.
  - intros key req. rewrite Hl. apply issues_Ret.
  - intros v req. unfold get_transformed_property, async_with_semaphore.
    destruct v; try apply issues_Ret.
    destruct (negb (truthy _)); [apply issues_Ret|]. rewrite Hl. simpl.
    intros Hi. apply issues_acquire_inv, issues_Call, issues_release_inv, issues_Call in Hi.
    destruct (transform_property _ _); simpl in *; now apply issues_Ret in Hi.
  - intros property_id req. unfold get_property_by_id. rewrite Hm. simpl.
    intros Hi. now apply issues_Call, issues_Ret in Hi.
  - intros w url. now rewrite Hm.
  - intros w key. now rewrite Hl.
Qed.

Lemma not_configured_makes_no_call_witness :
  MLS_CONFIGURED unconfigured_mls = false
  /\ io_run (fun _ => NoResponse "") (fetch_mls_data unconfigured_mls "u")
     = raise (HTTPException 503 "MLS API not configured.").
Proof.
  split; [reflexivity|].
  apply (not_configured_makes_no_call (fun _ => "") (fun _ => "") unconfigured_mls eq_refl).
Defined.

(** X6: the listing fetch returns a value exactly when the API is configured,
    the status is 2xx and the body decodes to an object; the value is then
    the entry under ["value"], or the empty list when there is none. *)
Theorem fetch_mls_data_returns_iff cfg url o v :
  io_run (fun _ => o) (fetch_mls_data cfg url) = ret v
  <-> MLS_CONFIGURED cfg = true
      /\ exists r env, o = Responded r /\ is_success r = true
                       /\ json r = Some (PDict env)
                       /\ v = dict_get env "value" (PList []).
Proof.
  split.
  - intros H. destruct (MLS_CONFIGURED cfg) eqn:Hc.
    + split; [reflexivity|]. rewrite fetch_mls_data_configured in H by assumption.
      destruct o as [msg|r]; [discriminate|].
      unfold raise_for_status, response_json in H.
      destruct (is_success r) eqn:Hs; simpl in H; [|discriminate].
      destruct (json r) as [body|] eqn:Hj; simpl in H; [|discriminate].
      destruct body; simpl in H; try discriminate.
      injection H as <-. eauto 10.
    + unfold fetch_mls_data in H. rewrite Hc in H. discriminate.
  - intros (Hc & r & env & -> & Hs & Hj & ->).
    rewrite fetch_mls_data_configured by assumption.
    unfold raise_for_status, response_json. now rewrite Hs, Hj.
Qed.

Lemma fetch_mls_data_returns_iff_witness :
  io_run (fun _ => Responded (Response 200 "{}" (Some (PDict ∅))))
    (fetch_mls_data example_mls "u")
  = ret (PList []).
Proof.
  apply (proj2 (fetch_mls_data_returns_iff example_mls "u" _ (PList []))).
  split; [reflexivity|]. do 2 eexists. repeat split; reflexivity.
Defined.


Lemma media_urls_of_dicts (items : list (gmap string pyval)) :
  media_urls_of (map PDict items) = ret (kept_urls items).
Proof.
  unfold kept_urls. induction items as [|item items IH]; simpl; [reflexivity|].
  destruct (truthy (dict_get item "MediaURL" PNone)); simpl; [|exact IH].
  now rewrite IH.
Qed.

Lemma media_urls_of_non_dict items :
  Exists (fun v => is_dict v = false) items -> media_urls_of items = raise AttributeError.
Proof.
  induction 1 as [item items Hi | item items _ IH]; simpl.
  - destruct item; try reflexivity. discriminate.
  - destruct item; try reflexivity. simpl.
    destruct (truthy _); simpl; now rewrite IH.
Qed.

Lemma fetch_largest_media_answer py_repr cfg key r items :
  MLS_CONFIGURED cfg = true -> media_answer r items ->
  io_run (fun _ => Responded r) (fetch_largest_media py_repr cfg key)
  = ret match media_urls_of items with inr us => us | inl _ => [] end.
Proof.
  intros Hc (Hs & env & Hj & Hv). unfold fetch_largest_media. rewrite Hc. simpl.
  unfold raise_for_status, response_json. rewrite Hs, Hj. simpl.
  unfold dict_get. rewrite Hv. simpl. now destruct (media_urls_of items).
Qed.


(** X8: on a 2xx answer whose ["value"] is a list of objects, the media fetch
    returns the ["MediaURL"] of the items where it is truthy, in the order
    of the answer. *)
Theorem fetch_largest_media_keeps_order py_repr cfg key r items :
  MLS_CONFIGURED cfg = true -> media_answer r (map PDict items) ->
  io_run (fun _ => Responded r) (fetch_largest_media py_repr cfg key)
  = ret (kept_urls items).
Proof.
  intros Hc Hr. rewrite (fetch_largest_media_answer _ _ _ _ _ Hc Hr).
  now rewrite media_urls_of_dicts.
Qed.

Lemma fetch_largest_media_keeps_order_witness :
  io_run (fun _ => example_media_world 0 (Request "GET" "" ∅ None None))
    (fetch_largest_media (fun _ => "") example_mls (PStr "K1"))
  = ret (kept_urls [ {[ "MediaURL" := PStr "https://img.example/1.jpg" ]} ]).
Proof.
  apply (fetch_largest_media_keeps_order (fun _ => "") example_mls (PStr "K1") _
           [ {[ "MediaURL" := PStr "https://img.example/1.jpg" ]} ]).
  - reflexivity.
  - split; [reflexivity|]. eexists. split; reflexivity.
Defined.

(** X9: one item of the media answer that is not an object discards every
    image: the media fetch returns the empty list. *)
Theorem fetch_largest_media_all_or_nothing py_repr cfg key r items :
  MLS_CONFIGURED cfg = true -> media_answer r items ->
  Exists (fun v => is_dict v = false) items ->
  io_run (fun _ => Responded r) (fetch_largest_media py_repr cfg key) = ret [].
Proof.
  intros Hc Hr Hx. rewrite (fetch_largest_media_answer _ _ _ _ _ Hc Hr).
  now rewrite media_urls_of_non_dict.
Qed.

Lemma fetch_largest_media_all_or_nothing_witness :
  let items := [PDict {[ "MediaURL" := PStr "https://img.example/1.jpg" ]}; PNone] in
  let r := Response 200 "" (Some (PDict {[ "value" := PList items ]})) in
  io_run (fun _ => Responded r) (fetch_largest_media (fun _ => "") example_mls (PStr "K1"))
  = ret [].
Proof.
  intros items r.
  apply (fetch_largest_media_all_or_nothing (fun _ => "") example_mls (PStr "K1") r items).
  - reflexivity.
  - split; [reflexivity|]. eexists. split; reflexivity.
  - apply Exists_cons_tl, Exists_cons_hd. reflexivity.
Defined.

(** ** The transformer *)

Lemma all_str_raises items e : all_str items = inl e -> e = TypeError.
Proof.
  induction items as [|v items IH]; simpl; [discriminate|].
  destruct v; simpl; try (now intros [= <-]).
  destruct (all_str items); simpl; [intros [= <-]; now apply IH | discriminate].
Qed.

Lemma py_int_raises v e :
  py_int v = inl e -> e = TypeError \/ e = ValueError \/ e = OverflowError.
Proof.
  destruct v as [| b | z | [| n | m ex] | s | l | d]; simpl;
    try discriminate; try (intros [= <-]; tauto).
  destruct (int_of_str s); [discriminate | intros [= <-]; tauto].
Qed.

Lemma transform_property_raises d imgs e :
  transform_property d imgs = inl e ->
  e = TypeError \/ e = ValueError \/ e = OverflowError.
Proof.
  unfold transform_property, address_str, str_join.
  destruct (all_str _) as [e0|ss] eqn:Ha; simpl.
  { intros [= <-]. left. eapply all_str_raises; eauto. }
  destruct (py_int _) as [e1|b1] eqn:H1; simpl;
    [intros [= <-]; eapply py_int_raises; eauto|].
  destruct (py_int _) as [e2|b2] eqn:H2 in |- *; simpl;
    [intros [= <-]; eapply py_int_raises; eauto|].
  destruct (py_int _) as [e3|b3] eqn:H3 in |- *; simpl;
    [intros [= <-]; eapply py_int_raises; eauto|].
  discriminate.
Qed.

(** X10: the transformer reads only its eighteen keys: two listings that
    agree on them are transformed alike, whatever else they hold. *)
Theorem transform_property_reads_only_its_keys p q imgs :
  (forall k, In k relevant_keys -> p !! k = q !! k) ->
  transform_property p imgs = transform_property q imgs.
Proof.
  intros H.
  assert (Hg : forall k default, In k relevant_keys ->
                 dict_get p k default = dict_get q k default).
  { intros k default Hk. unfold dict_get. now rewrite (H k Hk). }
  unfold transform_property, address_str, address_parts.
  rewrite !Hg by (simpl; tauto). reflexivity.
Qed.

Lemma transform_property_reads_only_its_keys_witness :
  transform_property listing_with_extra None
  = transform_property listing_without_extra None.
Proof.
  apply transform_property_reads_only_its_keys.
  intros k Hk. simpl in Hk.
  repeat (destruct Hk as [<- | Hk]; [reflexivity|]). contradiction.
Defined.

Lemma filter_truthy_last (l : list pyval) v :
  truthy v = true -> List.filter truthy (l ++ [v]) = List.filter truthy l ++ [v].
Proof.
  intros Hv. induction l as [|x l IH]; simpl; [now rewrite Hv|].
  destruct (truthy x); simpl; now rewrite IH.
Qed.

Lemma all_str_last (l : list pyval) v ss :
  all_str (l ++ [v]) = ret ss ->
  exists ss' c, v = PStr c /\ ss = ss' ++ [c].
Proof.
  revert ss. induction l as [|x l IH]; simpl; intros ss H.
  - destruct v; try discriminate. injection H as <-. now exists [], s.
  - destruct x; try discriminate.
    destruct (all_str (l ++ [v])) as [e|ss0] eqn:Hl; simpl in H; [discriminate|].
    injection H as <-. destruct (IH ss0 eq_refl) as (ss' & c & -> & ->).
    now exists (s :: ss'), c.
Qed.

Lemma string_app_assoc (a b d : string) : a +:+ (b +:+ d) = (a +:+ b) +:+ d.
Proof.
  induction a as [|x a IH]; [reflexivity|].
  change (String x (a +:+ (b +:+ d)) = String x ((a +:+ b) +:+ d)). now f_equal.
Qed.

Lemma join_last sep (ss : list string) c :
  exists pre, join sep (ss ++ [c]) = pre +:+ c.
Proof.
  induction ss as [|s ss [pre IH]]; [now exists ""|].
  destruct ss as [|s' ss].
  - exists (s +:+ sep).
    change (join sep ([s] ++ [c])) with (s +:+ (sep +:+ c)).
    apply string_app_assoc.
  - exists (s +:+ sep +:+ pre).
    change (join sep ((s :: s' :: ss) ++ [c]))
      with (s +:+ (sep +:+ join sep ((s' :: ss) ++ [c]))).
    rewrite IH. now rewrite !string_app_assoc.
Qed.

(** X11: the address of a returned view is never empty and always ends with
    the country, which is the source country when it is truthy and "CA"
    otherwise. *)
Theorem address_ends_with_country p imgs v :
  transform_property p imgs = ret v ->
  exists pre country,
    address v = pre +:+ country
    /\ country <> ""
    /\ PStr country = py_or (dict_get p "Country" (PStr "")) (PStr "CA").
Proof.
  intros Hv. apply transform_property_address in Hv.
  unfold address_str, address_parts, str_join in Hv.
  set (last := py_or (dict_get p "Country" (PStr "")) (PStr "CA")) in *.
  assert (Ht : truthy last = true).
  { unfold last, py_or. destruct (truthy (dict_get p "Country" (PStr ""))) eqn:E;
      [exact E | reflexivity]. }
  change [dict_get p "PropertyAddress" (PStr ""); dict_get p "City" (PStr "");
          dict_get p "StateOrProvince" (PStr ""); dict_get p "PostalCode" (PStr ""); last]
    with ([dict_get p "PropertyAddress" (PStr ""); dict_get p "City" (PStr "");
           dict_get p "StateOrProvince" (PStr ""); dict_get p "PostalCode" (PStr "")]
          ++ [last]) in Hv.
  rewrite (filter_truthy_last _ _ Ht) in Hv.
  destruct (all_str _) as [e|ss] eqn:Ha; simpl in Hv; [discriminate|].
  injection Hv as Hv.
  destruct (all_str_last _ _ _ Ha) as (ss' & c & Hc & ->).
  destruct (join_last ", " ss' c) as [pre Hpre].
  exists pre, c. split; [now rewrite <- Hv|]. split; [|now rewrite Hc].
  intros ->. rewrite Hc in Ht. discriminate.
Qed.

Lemma address_ends_with_country_witness :
  exists pre country,
    "123 Main, ON, M1M1M1, CA" = pre +:+ country
    /\ country <> ""
    /\ PStr country = py_or (dict_get example_listing "Country" (PStr "")) (PStr "CA").
Proof.
  apply (address_ends_with_country example_listing None
           (PropertyView (PStr "") [] (PStr "") "123 Main, ON, M1M1M1, CA" (PStr "")
              0 0 0 (PStr "") (PStr "") (PStr "") (PStr "") (PStr "") (PStr "") (PStr ""))).
  vm_compute. reflexivity.
Defined.

(** X12: the description of a returned view is the public remarks when they
    are truthy, otherwise the private remarks when they are truthy, otherwise
    the empty string; so it is never null. *)
Theorem description_falls_back p imgs v :
  transform_property p imgs = ret v ->
  let public := dict_get p "PublicRemarks" (PStr "") in
  let private := dict_get p "PrivateRemarks" (PStr "") in
  description v = (if truthy public then public
                   else if truthy private then private else PStr "")
  /\ (truthy (description v) = true \/ description v = PStr "").
Proof.
  unfold transform_property. destruct (address_str p) as [e|a]; simpl; [discriminate|].
  destruct (py_int _) as [e|b1]; simpl; [discriminate|].
  destruct (py_int _) as [e|b2]; simpl; [discriminate|].
  destruct (py_int _) as [e|b3]; simpl; [discriminate|].
  intros [= <-]. simpl. unfold py_or.
  destruct (truthy (dict_get p "PublicRemarks" (PStr ""))) eqn:E1.
  - rewrite E1. auto.
  - destruct (truthy (dict_get p "PrivateRemarks" (PStr ""))) eqn:E2.
    + rewrite E2. auto.
    + auto.
Qed.

Lemma description_falls_back_witness :
  exists v, transform_property {[ "PublicRemarks" := PNone;
                                  "PrivateRemarks" := PStr "call first" ]} None = ret v
            /\ description v = PStr "call first".
Proof.
  destruct (transform_property {[ "PublicRemarks" := PNone;
                                  "PrivateRemarks" := PStr "call first" ]} None)
    as [e|v] eqn:H; [vm_compute in H; discriminate H|].
  exists v. split; [reflexivity|].
  rewrite (proj1 (description_falls_back _ _ _ H)). vm_compute. reflexivity.
Defined.

(** ** [GET /properties/{property_id}] *)

Lemma first_item_raises v e : first_item v = Some (inl e) -> is_HTTPException e = false.
Proof.
  unfold first_item. destruct (negb (truthy v)); [discriminate|].
  destruct v as [| | | | [|c s] | [|x l] | d]; intros [= H]; try discriminate H;
    now inversion H.
Qed.

Lemma transform_value_raises v imgs e :
  transform_value v imgs = inl e -> is_HTTPException e = false.
Proof.
  destruct v; simpl; try (now intros [= <-]).
  intros H. apply transform_property_raises in H. now destruct H as [-> | [-> | ->]].
Qed.

Lemma by_id_except_swallows str_of_exc e :
  is_HTTPException e = false ->
  get_property_by_id_except str_of_exc e = Ret (ret (by_id_error str_of_exc e)).
Proof. destruct e; simpl; (discriminate || reflexivity). Qed.

Lemma get_property_by_id_run py_repr str_of_exc cfg property_id w :
  MLS_CONFIGURED cfg = true ->
  io_run w (get_property_by_id py_repr str_of_exc cfg property_id)
  = ret match w (by_id_request cfg property_id) with
        | NoResponse msg => by_id_error str_of_exc (TransportError msg)
        | Responded r =>
            match (let* _ := raise_for_status r in
                   let* body := response_json r in
                   py_get body "value" (PList [])) with
            | inl e => by_id_error str_of_exc e
            | inr mls_properties =>
                match first_item mls_properties with
                | None => ByIdError "Property not found"
                | Some (inl e) => by_id_error str_of_exc e
                | Some (inr mls_property) =>
                    match transform_value mls_property
                            (Some (fetched_media py_repr cfg (PStr property_id) w)) with
                    | inl e => by_id_error str_of_exc e
                    | inr view => ByIdView view
                    end
                end
            end
        end.
Proof.
  intros Hc. unfold get_property_by_id. rewrite io_run_catch, io_run_bind, io_run_Call.
  destruct (io_run w (fetch_mls_data cfg _)) as [e|v] eqn:Hf.
  - pose proof Hf as Hk. apply fetch_mls_data_raises in Hk.
    destruct Hk as [[Hk _] | [_ Hk]]; [congruence|].
    rewrite (by_id_except_swallows _ _ Hk). simpl.
    unfold fetch_mls_data in Hf. rewrite Hc in Hf. simpl in Hf.
    unfold by_id_request. destruct (w _) as [msg|r]; simpl in Hf |- *.
    + now injection Hf as <-.
    + destruct (raise_for_status r); simpl in Hf |- *; [now injection Hf as <-|].
      destruct (response_json r); simpl in Hf |- *; [now injection Hf as <-|].
      destruct (py_get _ _ _); simpl in Hf |- *; [now injection Hf as <- | discriminate].
  - assert (Hv : match w (by_id_request cfg property_id) with
                 | NoResponse _ => False
                 | Responded r =>
                     (let* _ := raise_for_status r in
                      let* body := response_json r in
                      py_get body "value" (PList [])) = inr v
                 end).
    { unfold fetch_mls_data in Hf. rewrite Hc in Hf. simpl in Hf.
      unfold by_id_request. destruct (w _) as [msg|r]; simpl in Hf |- *; [discriminate|].
      destruct (raise_for_status r); simpl in Hf |- *; [discriminate|].
      destruct (response_json r); simpl in Hf |- *; [discriminate|].
      now destruct (py_get _ _ _). }
    destruct (w (by_id_request cfg property_id)) as [msg|r]; [contradiction|].
    rewrite Hv. clear Hv Hf.
    destruct (first_item v) as [[e|item]|] eqn:Hi; simpl.
    + now rewrite (by_id_except_swallows _ _ (first_item_raises _ _ Hi)).
    + rewrite io_run_bind, fetch_largest_media_returns. simpl.
      destruct (transform_value _ _) as [e|view] eqn:Ht; simpl; [|reflexivity].
      now rewrite (by_id_except_swallows _ _ (transform_value_raises _ _ _ Ht)).
    + reflexivity.
Qed.

(** X13: [get_property_by_id] raises only when the listing API is not
    configured, and then the 503; configured, every failure (transport, status,
    body, transformer) comes back as a returned body. *)
Theorem get_property_by_id_raises_iff py_repr str_of_exc cfg property_id w e :
  io_run w (get_property_by_id py_repr str_of_exc cfg property_id) = inl e
  <-> MLS_CONFIGURED cfg = false /\ e = HTTPException 503 "MLS API not configured.".
Proof.
  destruct (MLS_CONFIGURED cfg) eqn:Hc.
  - rewrite get_property_by_id_run by assumption.
    split; [discriminate | intros [H _]; discriminate H].
  - unfold get_property_by_id, fetch_mls_data. rewrite Hc. simpl.
    split; [intros [= <-]; auto | intros [_ ->]; reflexivity].
Qed.

Lemma get_property_by_id_raises_iff_witness :
  io_run (fun _ => NoResponse "")
    (get_property_by_id (fun _ => "") (fun _ => "") unconfigured_mls "K1")
  = inl (HTTPException 503 "MLS API not configured.").
Proof.
  apply (proj2 (get_property_by_id_raises_iff (fun _ => "") (fun _ => "")
                  unconfigured_mls "K1" (fun _ => NoResponse "") _)).
  split; reflexivity.
Defined.

(** X14: configured, a transport failure or a non-success status of the
    listing fetch is returned by [get_property_by_id] as the body
    [{"error": "Error fetching property: ..."}], not raised. *)
Theorem get_property_by_id_upstream_failure py_repr str_of_exc cfg property_id w :
  MLS_CONFIGURED cfg = true ->
  (forall msg, w (by_id_request cfg property_id) = NoResponse msg ->
      io_run w (get_property_by_id py_repr str_of_exc cfg property_id)
      = ret (by_id_error str_of_exc (TransportError msg)))
  /\ (forall r, w (by_id_request cfg property_id) = Responded r ->
        is_success r = false ->
        io_run w (get_property_by_id py_repr str_of_exc cfg property_id)
        = ret (by_id_error str_of_exc (HTTPStatusError (status_code r) (text r)))).
Proof.
  intros Hc. split.
  - intros msg Hw. rewrite get_property_by_id_run by assumption. now rewrite Hw.
  - intros r Hw Hr. rewrite get_property_by_id_run by assumption. rewrite Hw.
    unfold raise_for_status. now rewrite Hr.
Qed.

Lemma get_property_by_id_upstream_failure_witness :
  io_run (fun _ => Responded (Response 404 "no such resource" None))
    (get_property_by_id (fun _ => "") (fun _ => "404 Not Found") example_mls "K1")
  = ret (ByIdError "Error fetching property: 404 Not Found").
Proof.
  apply (proj2 (get_property_by_id_upstream_failure (fun _ => "") (fun _ => "404 Not Found")
                  example_mls "K1" (fun _ => Responded (Response 404 "no such resource" None))
                  eq_refl)
           (Response 404 "no such resource" None) eq_refl eq_refl).
Defined.

(** X15: configured, when the listing answer holds no listing (no ["value"],
    an empty list, null), [get_property_by_id] returns
    [{"error": "Property not found"}], whatever the media endpoint would
    answer. *)
Theorem get_property_by_id_not_found py_repr str_of_exc cfg property_id w r value :
  MLS_CONFIGURED cfg = true ->
  w (by_id_request cfg property_id) = Responded r ->
  listing_answer r value -> truthy value = false ->
  io_run w (get_property_by_id py_repr str_of_exc cfg property_id)
  = ret (ByIdError "Property not found").
Proof.
  intros Hc Hw (Hs & env & Hj & Hv) Ht.
  rewrite get_property_by_id_run by assumption. rewrite Hw.
  unfold raise_for_status, response_json. rewrite Hs, Hj. simpl. rewrite Hv.
  unfold first_item. now rewrite Ht.
Qed.

Lemma get_property_by_id_not_found_witness :
  io_run (fun _ => Responded (Response 200 "{}" (Some (PDict ∅))))
    (get_property_by_id (fun _ => "") (fun _ => "") example_mls "K1")
  = ret (ByIdError "Property not found").
Proof.
  apply (get_property_by_id_not_found (fun _ => "") (fun _ => "") example_mls "K1"
           (fun _ => Responded (Response 200 "{}" (Some (PDict ∅))))
           (Response 200 "{}" (Some (PDict ∅))) (PList []) eq_refl eq_refl).
  - split; [reflexivity|]. exists ∅. split; reflexivity.
  - reflexivity.
Defined.

(** X16: configured, when the listing answer is a non-empty list whose first
    item is an object the transformer accepts, [get_property_by_id] returns
    that first listing transformed with the media fetched for the requested
    id; the other listings of the answer are ignored. *)
Theorem get_property_by_id_found py_repr str_of_exc cfg property_id w r d rest view :
  MLS_CONFIGURED cfg = true ->
  w (by_id_request cfg property_id) = Responded r ->
  listing_answer r (PList (PDict d :: rest)) ->
  transform_property d (Some (fetched_media py_repr cfg (PStr property_id) w)) = ret view ->
  io_run w (get_property_by_id py_repr str_of_exc cfg property_id) = ret (ByIdView view)
  /\ images view = fetched_media py_repr cfg (PStr property_id) w.
Proof.
  intros Hc Hw (Hs & env & Hj & Hv) Ht. split.
  - rewrite get_property_by_id_run by assumption. rewrite Hw.
    unfold raise_for_status, response_json. rewrite Hs, Hj. simpl. rewrite Hv.
    simpl. now rewrite Ht.
  - now apply transform_property_images in Ht.
Qed.

Lemma get_property_by_id_found_witness :
  exists view,
    io_run by_id_world (get_property_by_id (fun _ => "") (fun _ => "") example_mls "K1")
    = ret (ByIdView view)
    /\ images view = [].
Proof.
  destruct (transform_property {[ "ListingKey" := PStr "K1" ]}
              (Some (fetched_media (fun _ => "") example_mls (PStr "K1") by_id_world)))
    as [e|view] eqn:Ht; [vm_compute in Ht; discriminate Ht|].
  exists view.
  destruct (get_property_by_id_found (fun _ => "") (fun _ => "") example_mls "K1"
              by_id_world
              (Response 200 ""
                 (Some (PDict {[ "value" := PList [PDict {[ "ListingKey" := PStr "K1" ]}] ]})))
              {[ "ListingKey" := PStr "K1" ]} [] view eq_refl eq_refl) as [H1 H2].
  - split; [reflexivity|]. eexists. split; reflexivity.
  - exact Ht.
  - split; [exact H1|]. rewrite H2. vm_compute. reflexivity.
Defined.

Lemma uses_semaphore_bind {A B} (m : io A) (f : A -> io B) :
  uses_semaphore (io_bind m f) -> uses_semaphore m \/ exists a, uses_semaphore (f a).
Proof.
  induction m as [[e|a] | req k IH | k IH | k IH | name k IH]; simpl; intros H.
  - contradiction.
  - right. now exists a.
  - destruct H as [o H]. destruct (IH o H) as [H'|H']; [left; now exists o | now right].
  - now left.
  - now left.
  - destruct (IH H) as [H'|H']; [now left | now right].
Qed.

Lemma uses_semaphore_catch {A} (m : io A) (h : pyexc -> io A) :
  uses_semaphore (io_catch m h) -> uses_semaphore m \/ exists e, uses_semaphore (h e).
Proof.
  induction m as [[e|a] | req k IH | k IH | k IH | name k IH]; simpl; intros H.
  - right. now exists e.
  - contradiction.
  - destruct H as [o H]. destruct (IH o H) as [H'|H']; [left; now exists o | now right].
  - now left.
  - now left.
  - destruct (IH H) as [H'|H']; [now left | now right].
Qed.

Lemma fetch_mls_data_no_semaphore cfg url : ~ uses_semaphore (fetch_mls_data cfg url).
Proof.
  unfold fetch_mls_data. destruct (negb (MLS_CONFIGURED cfg)); simpl; [tauto|].
  intros [o H]. destruct o as [msg|r]; simpl in H; [contradiction|].
  destruct (raise_for_status r); simpl in H; [contradiction|].
  destruct (response_json r); simpl in H; contradiction.
Qed.

Lemma fetch_largest_media_no_semaphore py_repr cfg key :
  ~ uses_semaphore (fetch_largest_media py_repr cfg key).
Proof.
  destruct (fetch_largest_media_shape py_repr cfg key) as [-> | (req & k & -> & Hk)];
    simpl; [tauto|].
  intros [o H]. destruct (Hk o) as [urls Ho]. now rewrite Ho in H.
Qed.

(** X17: [get_property_by_id] makes its calls with the timeout of 30 and
    never touches the semaphore: its media fetch is not counted against the
    four permits, unlike the media fetch of a fan-out task. *)
Theorem get_property_by_id_outside_semaphore py_repr str_of_exc cfg property_id :
  (forall req, issues (get_property_by_id py_repr str_of_exc cfg property_id) req ->
               timeout req = Some REQUEST_TIMEOUT)
  /\ ~ uses_semaphore (get_property_by_id py_repr str_of_exc cfg property_id)
  /\ (forall d, has_listing_key d = true ->
                uses_semaphore (get_transformed_property py_repr cfg (PDict d))).
Proof.
  split; [|split].
  - intros req H. unfold get_property_by_id in H.
    apply issues_catch in H. destruct H as [H | [e H]];
      [|destruct e; now apply issues_Ret in H].
    apply issues_bind in H. destruct H as [H | [v H]];
      [apply issues_Call in H; eapply fetch_mls_data_timeout; eauto|].
    destruct (first_item v) as [first|]; [|now apply issues_Ret in H].
    apply issues_bind in H. destruct H as [H | [item H]]; [now apply issues_Ret in H|].
    apply issues_bind in H. destruct H as [H | [urls H]];
      [apply issues_Call in H; eapply fetch_largest_media_timeout; eauto|].
    no_call.
  - intros H. unfold get_property_by_id in H.
    apply uses_semaphore_catch in H. destruct H as [H | [e H]]; [|now destruct e].
    apply uses_semaphore_bind in H. destruct H as [H | [v H]];
      [now apply fetch_mls_data_no_semaphore in H|].
    destruct (first_item v) as [first|]; [|exact H].
    apply uses_semaphore_bind in H. destruct H as [H | [item H]]; [exact H|].
    apply uses_semaphore_bind in H. destruct H as [H | [urls H]];
      [now apply fetch_largest_media_no_semaphore in H|].
    apply uses_semaphore_bind in H. destruct H as [H | [view H]]; exact H.
  - intros d Hd. unfold get_transformed_property, has_listing_key, listing_key in *.
    rewrite Hd. simpl. exact I.
Qed.

(** ** [GET /properties] end to end *)

Lemma get_transformed_property_raises py_repr cfg v w e :
  io_run w (get_transformed_property py_repr cfg v) = inl e -> is_HTTPException e = false.
Proof.
  destruct v as [| | | | | | d]; try (simpl; now intros [= <-]).
  rewrite (get_transformed_property_run py_repr cfg (fun _ => w) O d).
  unfold task_outcome. simpl. destruct (has_listing_key d); [|discriminate].
  destruct (transform_property _ _) as [e'|view] eqn:Ht; [|discriminate].
  intros [= <-]. apply transform_property_raises in Ht.
  now destruct Ht as [-> | [-> | ->]].
Qed.

Lemma get_properties_except_wraps str_of_exc (A : Type) e :
  is_HTTPException e = false ->
  get_properties_except str_of_exc (inl e : res A)
  = raise (HTTPException 500 ("Error fetching properties: " +:+ str_of_exc e)).
Proof. destruct e; simpl; (discriminate || reflexivity). Qed.

(** X18: whatever the criteria, the answers and the schedule, [GET /properties]
    raises nothing but the 503 of a listing API that is not configured or a
    500 whose detail is "Error fetching properties: " followed by the
    message of the exception it caught. *)
Theorem get_properties_raises_only_http py_repr str_of_exc cfg limit city
    min_price max_price min_beds max_beds min_baths max_baths pt
    listing_world media_world sched e :
  get_properties py_repr str_of_exc cfg limit city min_price max_price
    min_beds max_beds min_baths max_baths pt listing_world media_world sched
  = Some (inl e) ->
  (MLS_CONFIGURED cfg = false /\ e = HTTPException 503 "MLS API not configured.")
  \/ (MLS_CONFIGURED cfg = true
      /\ exists e', e = HTTPException 500
                         ("Error fetching properties: " +:+ str_of_exc e')).
Proof.
  unfold get_properties. intros H. apply fmap_Some in H. destruct H as (b & Hb & He).
  assert (Hwrap : forall e0, b = inl e0 -> is_HTTPException e0 = false ->
            MLS_CONFIGURED cfg = true ->
            (MLS_CONFIGURED cfg = false /\ e = HTTPException 503 "MLS API not configured.")
            \/ (MLS_CONFIGURED cfg = true
                /\ exists e', e = HTTPException 500
                                   ("Error fetching properties: " +:+ str_of_exc e'))).
  { intros e0 -> He0 Hc. rewrite (get_properties_except_wraps _ _ _ He0) in He.
    injection He as ->. right. eauto. }
  destruct (io_run listing_world (fetch_mls_data cfg _)) as [e0|v] eqn:Hf.
  - injection Hb as <-. apply fetch_mls_data_raises in Hf.
    destruct Hf as [[Hc ->] | [Hc He0]].
    + simpl in He. injection He as ->. now left.
    + eapply Hwrap; eauto.
  - assert (Hc : MLS_CONFIGURED cfg = true).
    { unfold fetch_mls_data in Hf. destruct (MLS_CONFIGURED cfg); [reflexivity | discriminate]. }
    destruct (negb (truthy v)); [injection Hb as <-; discriminate He|].
    destruct (py_iter v) as [e0|props] eqn:Hi.
    + injection Hb as <-. apply (Hwrap e0 eq_refl); [|exact Hc].
      destruct v; simpl in Hi; try discriminate Hi; now injection Hi as <-.
    + unfold enrich_all in Hb.
      set (coros := map (get_transformed_property py_repr cfg) props) in Hb.
      set (p := run media_world sched (init_pool CONCURRENCY_LIMIT coros)) in Hb.
      assert (Hp : pool_inv media_world CONCURRENCY_LIMIT coros p).
      { apply run_pool_inv, init_pool_inv.
        apply (proj1 (fan_out_tasks_disciplined py_repr cfg props)). }
      destruct (gather_result p) as [[e0|vs]|] eqn:Hg;
        [|injection Hb as <-; discriminate He | discriminate Hb].
      injection Hb as <-.
      destruct (gather_raises _ _ _ _ _ Hp Hg) as (i & c & Hci & Hrun).
      unfold coros in Hci. rewrite list_lookup_fmap in Hci.
      destruct (props !! i) as [v'|]; [|discriminate]. injection Hci as <-.
      apply get_transformed_property_raises in Hrun.
      apply (Hwrap e0 eq_refl Hrun Hc).
Qed.

Lemma get_properties_raises_only_http_witness :
  MLS_CONFIGURED example_mls = true
  /\ exists e', HTTPException 500 "Error fetching properties: 404 Not Found"
                = HTTPException 500 ("Error fetching properties: "
                                     +:+ (fun _ : pyexc => "404 Not Found") e').
Proof.
  destruct (get_properties_raises_only_http (fun _ => "") (fun _ => "404 Not Found")
              example_mls 24 None None None None None None None None
              (fun _ => Responded (Response 404 "no such resource" None))
              (fun _ _ => NoResponse "") []
              (HTTPException 500 "Error fetching properties: 404 Not Found") eq_refl)
    as [[H _] | H]; [discriminate H | exact H].
Defined.

(** X19: configured, when the listing answer holds no listing (no ["value"],
    an empty list, null), [GET /properties] returns the empty list under every
    schedule, without any fan-out. *)
Theorem get_properties_empty py_repr str_of_exc cfg limit city
    min_price max_price min_beds max_beds min_baths max_baths pt
    r value media_world sched :
  MLS_CONFIGURED cfg = true -> listing_answer r value -> truthy value = false ->
  get_properties py_repr str_of_exc cfg limit city min_price max_price
    min_beds max_beds min_baths max_baths pt
    (fun _ => Responded r) media_world sched
  = Some (ret []).
Proof.
  intros Hc (Hs & env & Hj & Hv) Ht. unfold get_properties.
  rewrite fetch_mls_data_configured by assumption.
  unfold raise_for_status, response_json. rewrite Hs, Hj. simpl. rewrite Hv, Ht.
  reflexivity.
Qed.

Lemma get_properties_empty_witness :
  get_properties (fun _ => "") (fun _ => "") example_mls 24
    None None None None None None None None
    (fun _ => Responded (Response 200 "" (Some (PDict {[ "value" := PList [] ]}))))
    (fun _ _ => NoResponse "") []
  = Some (ret []).
Proof.
  apply (get_properties_empty (fun _ => "") (fun _ => "") example_mls 24
           None None None None None None None None _ (PList [])).
  - reflexivity.
  - split; [reflexivity|]. eexists. split; reflexivity.
  - reflexivity.
Defined.




(** ** Cart and wishlist: further properties *)

Lemma table_row_user_id row :
  py_getitem (table_row row) "user_id" = ret (PStr (row_owner row)).
Proof. unfold table_row, py_getitem. now rewrite lookup_insert_eq. Qed.

Lemma table_row_property_id row :
  py_getitem (table_row row) "property_id" = ret (row_property row).
Proof.
  unfold table_row, py_getitem.
  rewrite lookup_insert_ne by discriminate. now rewrite lookup_insert_eq.
Qed.

Lemma property_ids_of_table rows :
  property_ids_of (map table_row rows) = ret (map row_property rows).
Proof.
  induction rows as [|row rows IH]; [reflexivity|].
  cbn [map property_ids_of]. rewrite table_row_property_id, IH. reflexivity.
Qed.

Lemma validate_user_isolation_table user_id rows :
  Cart.validate_user_isolation user_id (map table_row rows)
  = if forallb (fun row => String.eqb (row_owner row) user_id) rows then ret tt
    else raise (HTTPException 500
                  "Data integrity error: cart contains items from other users").
Proof.
  induction rows as [|row rows IH]; [reflexivity|].
  cbn [map Cart.validate_user_isolation forallb]. rewrite table_row_user_id. simpl.
  destruct (String.eqb (row_owner row) user_id); simpl; [exact IH | reflexivity].
Qed.

(** X21: when the store answers 200 with rows that each carry a str owner and
    a property id (and any other columns), [list_cart] returns the property
    ids in the order of the rows, with their number and the caller's id, if
    every row is owned by the caller, and raises the integrity error (500)
    otherwise. *)
Theorem list_cart_isolation cfg user_id auth body rows :
  io_run (fun _ => Responded (Response 200 body (Some (PList (map table_row rows)))))
    (Cart.list_cart cfg user_id auth)
  = if forallb (fun row => String.eqb (row_owner row) user_id) rows
    then ret {[ "cart" := PList (map row_property rows);
                "user_id" := PStr user_id;
                "count" := PInt (Z.of_nat (length rows)) ]}
    else raise (HTTPException 500
                  "Data integrity error: cart contains items from other users").
Proof.
  unfold Cart.list_cart. simpl. rewrite validate_user_isolation_table.
  destruct (forallb _ rows); [|reflexivity].
  rewrite property_ids_of_table. simpl. now rewrite length_map.
Qed.

Lemma property_ids_of_length rows : forall ids,
  property_ids_of rows = ret ids -> length ids = length rows.
Proof.
  induction rows as [|row rows IH]; simpl; intros ids H.
  - now injection H as <-.
  - destruct (py_getitem row "property_id"); simpl in H; [discriminate|].
    destruct (property_ids_of rows) as [e|ids']; simpl in H; [discriminate|].
    injection H as <-. simpl. now rewrite (IH ids' eq_refl).
Qed.

(** X22: whatever the store answers, when [list_cart] or [list_wishlist]
    returns, the store answered with a body that decodes to some rows, and the
    result echoes the caller's id, lists one entry per row and gives as count
    the length of that list. *)
Theorem listing_count_matches cfg user_id auth w d :
  let from_rows (key : string) :=
    exists req r v rows ids,
      w req = Responded r /\ response_json r = ret v /\ py_iter v = ret rows
      /\ property_ids_of rows = ret ids
      /\ length ids = length rows
      /\ d = {[ key := PList ids; "user_id" := PStr user_id;
                "count" := PInt (Z.of_nat (length ids)) ]} in
  (io_run w (Cart.list_cart cfg user_id auth) = ret d -> from_rows "cart")
  /\ (io_run w (Wishlist.list_wishlist cfg user_id auth) = ret d ->
      from_rows "wishlist").
Proof.
  intros from_rows. unfold from_rows. split.
  - unfold Cart.list_cart. simpl. destruct (w _) as [msg|r] eqn:Hw; simpl; [discriminate|].
    destruct (negb (Z.eqb (status_code r) 200)); simpl; [discriminate|].
    destruct (response_json r) as [e|v] eqn:Hj; simpl; [discriminate|].
    destruct (py_iter v) as [e|rows] eqn:Hr; simpl; [discriminate|].
    destruct (Cart.validate_user_isolation user_id rows); simpl; [discriminate|].
    destruct (property_ids_of rows) as [e|ids] eqn:Hids; simpl; [discriminate|].
    intros [= <-]. eexists. exists r, v, rows, ids.
    split; [exact Hw|]. split; [exact Hj|]. split; [exact Hr|]. split; [exact Hids|].
    split; [now apply property_ids_of_length | reflexivity].
  - unfold Wishlist.list_wishlist. simpl.
    destruct (w _) as [msg|r] eqn:Hw; simpl; [discriminate|].
    destruct (negb (Z.eqb (status_code r) 200)); simpl; [discriminate|].
    destruct (response_json r) as [e|v] eqn:Hj; simpl; [discriminate|].
    destruct (py_iter v) as [e|rows] eqn:Hr; simpl; [discriminate|].
    destruct (property_ids_of rows) as [e|ids] eqn:Hids; simpl; [discriminate|].
    intros [= <-]. eexists. exists r, v, rows, ids.
    split; [exact Hw|]. split; [exact Hj|]. split; [exact Hr|]. split; [exact Hids|].
    split; [now apply property_ids_of_length | reflexivity].
Qed.

Lemma listing_count_matches_witness :
  exists req r v rows ids,
    store_answers_rows "" mixed_rows req = Responded r
    /\ response_json r = ret v /\ py_iter v = ret rows
    /\ property_ids_of rows = ret ids
    /\ length ids = length rows
    /\ ({[ "wishlist" := PList [PStr "p1"; PStr "p2"; PStr "p3"]; "user_id" := PStr "A";
           "count" := PInt 3 ]} : gmap string pyval)
       = {[ "wishlist" := PList ids; "user_id" := PStr "A";
            "count" := PInt (Z.of_nat (length ids)) ]}.
Proof.
  apply (proj2 (listing_count_matches example_supabase "A" None
                  (store_answers_rows "" mixed_rows) _)).
  vm_compute. reflexivity.
Defined.

(** X23: a status the handler does not accept is echoed: each of the six cart
    and wishlist handlers raises an HTTPException carrying the store's own
    status and body.  Accepted are 201, 200 (and 409 for the cart) on add,
    204 and 200 on remove, 200 on list. *)
Theorem row_store_failure_echoed cfg property_id user_id auth r :
  let fails (handler : io (gmap string pyval)) :=
    io_run (fun _ => Responded r) handler
    = raise (HTTPException (status_code r) (text r)) in
  (status_in [201; 200; 409] r = false ->
   fails (Cart.add_to_cart cfg property_id user_id auth))
  /\ (status_in [201; 200] r = false ->
      fails (Wishlist.add_to_wishlist cfg property_id user_id auth))
  /\ (status_in [204; 200] r = false ->
      fails (Cart.remove_from_cart cfg property_id user_id auth)
      /\ fails (Wishlist.remove_from_wishlist cfg property_id user_id auth))
  /\ (status_in [200] r = false ->
      fails (Cart.list_cart cfg user_id auth)
      /\ fails (Wishlist.list_wishlist cfg user_id auth)).
Proof.
  intros fails. unfold fails, status_in. simpl.
  assert (Hor : forall a b : bool, a || b = false -> a = false /\ b = false)
    by (intros [|] [|]; simpl; auto; discriminate).
  (split; [intros H | split; [intros H | split; [intros H; split | intros H; split]]]);
    repeat match type of H with
           | _ || _ = false => apply Hor in H; destruct H as [? H]
           end;
    unfold Cart.add_to_cart, Wishlist.add_to_wishlist, Cart.remove_from_cart,
      Wishlist.remove_from_wishlist, Cart.list_cart, Wishlist.list_wishlist; simpl;
    repeat match goal with
           | Hz : Z.eqb _ _ = false |- _ => rewrite Hz; clear Hz
           end; reflexivity.
Qed.

Lemma row_store_failure_echoed_witness :
  io_run (fun _ => Responded (Response 401 "JWT expired" None))
    (Cart.add_to_cart example_supabase "p1" "A" None)
  = raise (HTTPException 401 "JWT expired").
Proof.
  apply (proj1 (row_store_failure_echoed example_supabase "p1" "A" None
                  (Response 401 "JWT expired" None))).
  reflexivity.
Defined.

(** X24: the two remove handlers answer alike whatever the store does, and on
    a 204 or a 200 they return [{"ok": true}] whatever the body says: a
    delete that matched no row is not told apart from one that did. *)
Theorem remove_handlers_agree cfg property_id user_id auth o :
  io_run (fun _ => o) (Cart.remove_from_cart cfg property_id user_id auth)
  = io_run (fun _ => o) (Wishlist.remove_from_wishlist cfg property_id user_id auth)
  /\ (forall r, o = Responded r -> status_in [204; 200] r = true ->
        io_run (fun _ => o) (Cart.remove_from_cart cfg property_id user_id auth)
        = ret {[ "ok" := PBool true ]}).
Proof.
  split; [reflexivity|]. intros r -> H. unfold status_in in H. simpl in H.
  unfold Cart.remove_from_cart. simpl.
  destruct (Z.eqb (status_code r) 204); [reflexivity|].
  destruct (Z.eqb (status_code r) 200); [reflexivity | discriminate H].
Qed.

Lemma remove_handlers_agree_witness :
  io_run (fun _ => Responded (Response 204 "" None))
    (Cart.remove_from_cart example_supabase "p1" "A" None)
  = ret {[ "ok" := PBool true ]}.
Proof.
  apply (proj2 (remove_handlers_agree example_supabase "p1" "A" None
                  (Responded (Response 204 "" None))) (Response 204 "" None) eq_refl).
  reflexivity.
Defined.

Lemma add_auth_headers_lookup cfg auth (base : gmap string string) :
  base !! "Authorization" = None -> base !! "apikey" = None ->
  add_auth_headers cfg auth base !! "Authorization" = forwarded auth
  /\ add_auth_headers cfg auth base !! "apikey" = forwarded (SUPABASE_ANON_KEY cfg).
Proof.
  intros Ha Hk. unfold add_auth_headers, forwarded.
  destruct (SUPABASE_ANON_KEY cfg) as [key|]; simpl;
    [destruct (negb (String.eqb key ""))|];
    (destruct auth as [a|]; simpl; [destruct (negb (String.eqb a ""))|]);
    rewrite ?lookup_insert_eq, ?lookup_insert_ne by discriminate;
    rewrite ?lookup_insert_eq, ?lookup_insert_ne by discriminate; auto.
Qed.

(** X25: every call of the six cart and wishlist handlers forwards the
    caller's Authorization header unchanged when it is non-empty and sends
    none otherwise, and carries the [apikey] header exactly when the
    anonymous key is set and non-empty. *)
Theorem credentials_forwarded cfg property_id user_id auth req :
  issues (Cart.add_to_cart cfg property_id user_id auth) req
  \/ issues (Cart.remove_from_cart cfg property_id user_id auth) req
  \/ issues (Cart.list_cart cfg user_id auth) req
  \/ issues (Wishlist.add_to_wishlist cfg property_id user_id auth) req
  \/ issues (Wishlist.remove_from_wishlist cfg property_id user_id auth) req
  \/ issues (Wishlist.list_wishlist cfg user_id auth) req ->
  rq_headers req !! "Authorization" = forwarded auth
  /\ rq_headers req !! "apikey" = forwarded (SUPABASE_ANON_KEY cfg).
Proof.
  intros H.
  repeat (destruct H as [H | H]);
    (apply issues_send_then in H; [|intros resp; no_call]); subst req; simpl;
    apply add_auth_headers_lookup; reflexivity.
Qed.

Lemma credentials_forwarded_witness :
  let req := Request "GET" "https://db.example/rest/v1/cart?user_id=eq.A"
               (add_auth_headers example_supabase (Some "Bearer t") ∅) None None in
  issues (Cart.list_cart example_supabase "A" (Some "Bearer t")) req
  /\ rq_headers req !! "Authorization" = Some "Bearer t".
Proof.
  intros req.
  assert (H : issues (Cart.list_cart example_supabase "A" (Some "Bearer t")) req).
  { unfold Cart.list_cart. simpl. apply issues_here. }
  split; [exact H|].
  apply (proj1 (credentials_forwarded example_supabase "p1" "A" (Some "Bearer t") req
                  (or_intror (or_intror (or_introl H))))).
Defined.

(** ** The permits after the fan-out *)

(** X26: once every task of a fan-out has been collected, all four permits
    are free again, whatever the media endpoint answered and whether or not
    a transformer raised. *)
Theorem fan_out_returns_permits py_repr cfg (batch : list pyval)
    (world : nat -> request -> http_outcome) (sched : list nat) :
  let p := run world sched
             (init_pool CONCURRENCY_LIMIT
                (map (get_transformed_property py_repr cfg) batch)) in
  all_finished p -> permits p = 4%nat /\ permits_held p = O.
Proof.
  intros p Hfin.
  assert (Hp : pool_inv world CONCURRENCY_LIMIT
                 (map (get_transformed_property py_repr cfg) batch) p).
  { apply run_pool_inv, init_pool_inv.
    apply (proj1 (fan_out_tasks_disciplined py_repr cfg batch)). }
  assert (Hheld : permits_held p = O).
  { unfold permits_held. unfold all_finished in Hfin.
    pose proof (inv_task _ _ _ _ Hp) as Ht.
    assert (G : forall l : list (task (option property_view)),
               (forall i t, l !! i = Some t -> held t = O) -> list_sum (map held l) = O).
    { induction l as [|t l IH]; intros Hl; [reflexivity|]. simpl.
      rewrite (Hl O t eq_refl). apply IH. intros i t' Hi. apply (Hl (S i) t' Hi). }
    apply G. intros i t Hi. rewrite Forall_lookup in Hfin.
    destruct (Ht i t Hi) as (Hd & Hr & _). destruct (Hr (Hfin i t Hi)) as [r Hc].
    rewrite Hc in Hd. exact Hd. }
  pose proof (inv_permits _ _ _ _ Hp) as Hperm. rewrite Hheld in Hperm.
  split; [unfold CONCURRENCY_LIMIT in Hperm; lia | exact Hheld].
Qed.

Lemma fan_out_returns_permits_witness :
  permits (run example_media_world [0; 2; 0; 2; 1; 0; 2; 0; 2; 0; 2; 0; 2]%nat
             (init_pool CONCURRENCY_LIMIT
                (map (get_transformed_property (fun _ => "") example_mls)
                   (map PDict example_batch))))
  = 4%nat.
Proof.
  apply (fan_out_returns_permits (fun _ => "") example_mls (map PDict example_batch)
           example_media_world [0; 2; 0; 2; 1; 0; 2; 0; 2; 0; 2; 0; 2]%nat).
  unfold all_finished. vm_compute. repeat constructor.
Defined.

(** X27: the fan-out cannot deadlock: under any schedule and any answers,
    as long as some task has not been collected, some task can take a step. *)
Theorem fan_out_never_deadlocks py_repr cfg (batch : list pyval)
    (world : nat -> request -> http_outcome) (sched : list nat) :
  let p := run world sched
             (init_pool CONCURRENCY_LIMIT
                (map (get_transformed_property py_repr cfg) batch)) in
  ~ all_finished p -> exists i p', step world i p = Some p'.
Proof.
  intros p Hnf.
  apply (pool_progress world CONCURRENCY_LIMIT
           (map (get_transformed_property py_repr cfg) batch)).
  - apply run_pool_inv, init_pool_inv.
    apply (proj1 (fan_out_tasks_disciplined py_repr cfg batch)).
  - unfold CONCURRENCY_LIMIT. lia.
  - exact Hnf.
Qed.

Lemma fan_out_never_deadlocks_witness :
  exists i p',
    step example_media_world i
      (run example_media_world [0; 2]%nat
         (init_pool CONCURRENCY_LIMIT
            (map (get_transformed_property (fun _ => "") example_mls)
               (map PDict example_batch))))
    = Some p'.
Proof.
  apply (fan_out_never_deadlocks (fun _ => "") example_mls (map PDict example_batch)
           example_media_world [0; 2]%nat).
  unfold all_finished. intros H. apply Forall_inv in H. vm_compute in H. discriminate H.
Defined.

(** X28: there is no partial result: when one listing of the batch has a key
    and is rejected by the transformer, the fan-out, whenever it finishes,
    raises (a TypeError, ValueError or OverflowError of a transformer) and
    returns no view at all. *)
Theorem enrich_all_no_partial_result py_repr cfg (ds : list (gmap string pyval))
    (world : nat -> request -> http_outcome) i d :
  ds !! i = Some d -> has_listing_key d = true -> transformable d = false ->
  forall sched out,
    enrich_all py_repr cfg (map PDict ds) world sched = Some out ->
    exists e, out = raise e /\ (e = TypeError \/ e = ValueError \/ e = OverflowError).
Proof.
  intros Hi Hk Ht sched out. unfold enrich_all.
  set (coros := map (get_transformed_property py_repr cfg) (map PDict ds)).
  set (p := run world sched (init_pool CONCURRENCY_LIMIT coros)).
  assert (Hp : pool_inv world CONCURRENCY_LIMIT coros p).
  { apply run_pool_inv, init_pool_inv.
    apply (proj1 (fan_out_tasks_disciplined py_repr cfg (map PDict ds))). }
  destruct (gather_result p) as [[e|vs]|] eqn:Hg; [| |discriminate].
  - intros [= <-]. exists e. split; [reflexivity|].
    destruct (gather_raises _ _ _ _ _ Hp Hg) as (j & c & Hc & Hrun).
    unfold coros in Hc. rewrite !list_lookup_fmap in Hc.
    destruct (ds !! j) as [d'|]; [|discriminate].
    assert (Hceq : c = get_transformed_property py_repr cfg (PDict d'))
      by (simpl in Hc; now injection Hc).
    subst c.
    rewrite (get_transformed_property_run py_repr cfg (fun _ => world j) O d') in Hrun.
    unfold task_outcome in Hrun. simpl in Hrun.
    destruct (has_listing_key d'); [|discriminate].
    destruct (transform_property _ _) as [e'|view] eqn:He; [|discriminate].
    injection Hrun as <-. eapply transform_property_raises; eauto.
  - exfalso. pose proof (gather_values _ _ _ _ _ Hp Hg) as Hv.
    assert (Hvi : (map inr vs : list (res (option property_view))) !! i
                  = Some (task_outcome py_repr cfg world (i, d))).
    { rewrite Hv. unfold coros. rewrite task_runs_indexed, list_lookup_fmap,
        list_lookup_imap, Hi. reflexivity. }
    rewrite list_lookup_fmap in Hvi. destruct (vs !! i) as [v|]; [|discriminate].
    simpl in Hvi. injection Hvi as Hvi. unfold task_outcome in Hvi. simpl in Hvi.
    rewrite Hk in Hvi.
    destruct (transform_property d _) as [e|view] eqn:He; [discriminate|].
    assert (Hok : transformable d = true)
      by (eapply transformable_iff_returns; eauto).
    congruence.
Qed.

Lemma enrich_all_no_partial_result_witness :
  exists e,
    (raise ValueError : res (list property_view)) = raise e
    /\ (e = TypeError \/ e = ValueError \/ e = OverflowError).
Proof.
  apply (enrich_all_no_partial_result (fun _ => "") example_mls [bad_count_listing]
           (fun _ _ => NoResponse "timed out") O bad_count_listing
           eq_refl eq_refl eq_refl [0; 0; 0; 0; 0; 0]%nat).
  vm_compute. reflexivity.
Defined.
